(** * Monitor price analysis: the notebook pipeline, embedded and verified

    A shallow embedding of the notebook
    [src/notebooks/analysis/price_analysis_monitors.ipynb]:
    the Loader ([load_cleaned_data]), the Matcher
    ([filter_products_by_platforms]), the Analyzer
    ([analyze_price_differences]) and the main block.

    Conventions of the embedding.
    - A cell of a table is a Python scalar ([value]); a column is read as
      the list of its cells.  A table has one column per label: the labels
      of a file are taken to be distinct once normalised.  pandas holds a column as numbers or as objects;
      a column is taken as pandas builds it from a file or from the results
      of [apply]: as numbers when it has cells and all are integers or
      floats, as objects otherwise ([numeric_column], [infer_column]).
    - A finite float is identified with the rational number it stands for;
      the not-a-number float is [VNaN].
    - Text is ASCII: the character classes of [str.strip], [str.lower] and of
      the regular expression classes [\w] and [\s] are given on ASCII.
    - A Python exception is a value of [exn]; code that can raise returns a
      [result].  Logging is the list of emitted records, oldest first.
    - What the libraries compute from outside data ([pd.read_csv] on a file,
      [pd.to_datetime] on a cell, [Path.exists] on a directory) is given as
      data or as a parameter; so are the text [astype(str)] gives a cell,
      the table [pd.concat] makes of the frames collected, and what the
      calls that create a directory, draw a figure or save it end in
      ([outside]).
    - The cells of the notebook are read as the script they make up: the
      three paths are bound and the last cell is the main block. *)

From Stdlib Require Import ZArith QArith Qround Qabs Lqa String Ascii List
  Sorted Lia.
From stdpp Require Import base gmap strings list pretty.

Open Scope string_scope.
Open Scope list_scope.
Open Scope Z_scope.

(** ** Python exceptions and fallible computations *)

Inductive exn : Type :=
  | NameError (name : string)
  | KeyError (key : string)
  | TypeError
  | ValueError
  | OverflowError
  | PermissionError (path : string)
  | OSError (path : string)
  | ReadError
  | SystemExit (code : Z).

(** [except Exception] catches every class but [SystemExit], which derives
    from [BaseException] only. *)
Definition is_Exception (e : exn) : bool :=
  match e with
  | SystemExit _ => false
  | _ => true
  end.

Inductive result (A : Type) : Type :=
  | Ok (a : A)
  | Raise (e : exn).
Arguments Ok {A} a.
Arguments Raise {A} e.

Definition bind {A B : Type} (r : result A) (k : A -> result B) : result B :=
  match r with
  | Ok a => k a
  | Raise e => Raise e
  end.

#[global] Instance result_ret : MRet result := fun A a => Ok a.
#[global] Instance result_bind : MBind result := fun A B k r => bind r k.

(** [[f(x) for x in xs]], stopping at the first exception. *)
Fixpoint mapM {A B : Type} (f : A -> result B) (xs : list A)
  : result (list B) :=
  match xs with
  | [] => Ok []
  | x :: xs' => y ← f x; ys ← mapM f xs'; Ok (y :: ys)
  end.

(** ** Text *)

Module Text.

Definition code (c : ascii) : N := N_of_ascii c.

Definition in_range (lo hi : N) (c : ascii) : bool :=
  ((lo <=? code c) && (code c <=? hi))%N.

(** [\w] on ASCII text: letters, digits and the underscore. *)
Definition is_word (c : ascii) : bool :=
  in_range 97 122 c || in_range 65 90 c || in_range 48 57 c
  || (code c =? 95)%N.

(** [\s], and the characters [str.strip] removes: tab, line feed, vertical
    tab, form feed, carriage return, the four separators 28 to 31, space. *)
Definition is_space (c : ascii) : bool :=
  in_range 9 13 c || in_range 28 31 c || (code c =? 32)%N.

(** [s.replace(old, new)] for one-character [old] and [new]. *)
Fixpoint replace_char (old new : ascii) (s : string) : string :=
  match s with
  | EmptyString => EmptyString
  | String c s' =>
      String (if Ascii.eqb c old then new else c) (replace_char old new s')
  end.

Definition lower_char (c : ascii) : ascii :=
  if in_range 65 90 c then ascii_of_N (code c + 32) else c.

(** [s.lower()] *)
Fixpoint lower (s : string) : string :=
  match s with
  | EmptyString => EmptyString
  | String c s' => String (lower_char c) (lower s')
  end.

(** The white space of C ([isspace] in the C locale), which [float] drops
    around a literal: tab to carriage return, and space. *)
Definition is_c_space (c : ascii) : bool :=
  in_range 9 13 c || (code c =? 32)%N.

Fixpoint lstrip_chars (p : ascii -> bool) (s : string) : string :=
  match s with
  | EmptyString => EmptyString
  | String c s' => if p c then lstrip_chars p s' else s
  end.

(** Drops the trailing characters in [p]: a character is kept when
    something that is kept follows it, or when it is not in [p] itself. *)
Fixpoint rstrip_chars (p : ascii -> bool) (s : string) : string :=
  match s with
  | EmptyString => EmptyString
  | String c s' =>
      match rstrip_chars p s' with
      | EmptyString => if p c then EmptyString else String c EmptyString
      | t => String c t
      end
  end.

Definition strip_chars (p : ascii -> bool) (s : string) : string :=
  rstrip_chars p (lstrip_chars p s).

(** [s.strip()] *)
Definition strip (s : string) : string := strip_chars is_space s.

(** [re.sub(r"[^\w\s]", repl, s)]: every character that is neither a word
    character nor white space is replaced by [repl]. *)
Fixpoint re_sub_not_word_space (repl : string) (s : string) : string :=
  match s with
  | EmptyString => EmptyString
  | String c s' =>
      (if is_word c || is_space c then String c EmptyString else repl)
        +:+ re_sub_not_word_space repl s'
  end.

(** All characters of [s] satisfy [p]. *)
Fixpoint all_chars (p : ascii -> bool) (s : string) : bool :=
  match s with
  | EmptyString => true
  | String c s' => p c && all_chars p s'
  end.

End Text.

(** ** Chart file names (Analyzer) *)

(** [sanitized_title = re.sub(r"[^\w\s]", "_", product_id.replace("|", "_"))] *)
Definition sanitized_title (product_id : string) : string :=
  Text.re_sub_not_word_space "_" (Text.replace_char "|" "_" product_id).

(** [file_name = f"Monitor_{sanitized_title}.png"] *)
Definition file_name (product_id : string) : string :=
  "Monitor_" +:+ sanitized_title product_id +:+ ".png".

(** [product_id.replace('|', ' ')], the product description of the chart
    title. *)
Definition chart_title (product_id : string) : string :=
  "Price Trends for " +:+ Text.replace_char "|" " " product_id.

(** The rule as the specification words it: the separator becomes an
    underscore, then the characters that are neither word characters nor
    white space are removed. *)
Definition spec_stripped_file_name (product_id : string) : string :=
  "Monitor_"
    +:+ Text.re_sub_not_word_space "" (Text.replace_char "|" "_" product_id)
    +:+ ".png".

(** What the two passes of [sanitized_title] do to one character. *)
Definition sanitize_char (c : ascii) : ascii :=
  if Text.is_word c || Text.is_space c then c else "_"%char.

(** ** Scalars *)

(** A Python float: finite (the rational it stands for), infinite, or
    not a number. *)
Inductive pyfloat : Type :=
  | FFinite (q : Q)
  | FInf (negative : bool)
  | FNaN.

(** The cells of a table. [VNone] is [None], [VNaT] the missing date,
    [VFloat FNaN] the missing number. *)
Inductive value : Type :=
  | VStr (s : string)
  | VInt (z : Z)
  | VFloat (f : pyfloat)
  | VNone
  | VNaT
  | VDate (year month day : Z).

Abbreviation VNaN := (VFloat FNaN).

#[global] Instance Q_eq_dec : EqDecision Q.
Proof. solve_decision. Defined.
#[global] Instance pyfloat_eq_dec : EqDecision pyfloat.
Proof. solve_decision. Defined.
#[global] Instance value_eq_dec : EqDecision value.
Proof. solve_decision. Defined.

(** [pd.notnull(x)] *)
Definition pd_notnull (x : value) : bool :=
  match x with
  | VNone | VNaT | VFloat FNaN => false
  | _ => true
  end.

Module Num.

(** The integer nearest to [q], a tie going to the even neighbour: what
    [round] returns on a finite float. *)
Definition round_half_even (q : Q) : Z :=
  let f := Qfloor q in
  match Qcompare (q - inject_Z f) (1 # 2) with
  | Lt => f
  | Gt => f + 1
  | Eq => if Z.even f then f else f + 1
  end.

(** The double nearest to the integer [z]: exact below [2^53], rounded to
    53 significant bits (ties to even) above. *)
Definition nearest_double (z : Z) : Z :=
  let a := Z.abs z in
  if a <? 2 ^ 53 then z
  else
    let e := Z.log2 a - 52 in
    let q := a / 2 ^ e in
    let r := a mod 2 ^ e in
    let half := 2 ^ (e - 1) in
    let q' := if (half <? r) || ((r =? half) && Z.odd q) then q + 1 else q in
    Z.sgn z * (q' * 2 ^ e).

(** Magnitudes from here on round to an infinite double. *)
Definition overflow_threshold : Z := 2 ^ 1024 - 2 ^ 970.

Definition digit_of (c : ascii) : option Z :=
  if Text.in_range 48 57 c then Some (Z.of_N (Text.code c) - 48) else None.

(** Reads the digits that continue a digit part: digits, each optionally
    preceded by one underscore.  Returns the number read so far, the count
    of digits, and the rest of the text. *)
Fixpoint digits_tail (acc : Z) (n : nat) (s : string) : Z * nat * string :=
  match s with
  | String c s' =>
      match digit_of c with
      | Some d => digits_tail (acc * 10 + d) (S n) s'
      | None =>
          if Ascii.eqb c "_" then
            match s' with
            | String c2 s2 =>
                match digit_of c2 with
                | Some d => digits_tail (acc * 10 + d) (S n) s2
                | None => (acc, n, s)
                end
            | EmptyString => (acc, n, s)
            end
          else (acc, n, s)
      end
  | EmptyString => (acc, n, s)
  end.

(** A digit part, possibly empty (count [0]). *)
Definition digit_part (s : string) : Z * nat * string :=
  match s with
  | String c s' =>
      match digit_of c with
      | Some d => digits_tail d 1 s'
      | None => (0, O, s)
      end
  | EmptyString => (0, O, s)
  end.

(** An optional sign: [true] for minus. *)
Definition sign_part (s : string) : bool * string :=
  match s with
  | String "-" s' => (true, s')
  | String "+" s' => (false, s')
  | _ => (false, s)
  end.

(** The exponent part: absent, well formed, or malformed. *)
Definition exponent_part (s : string) : option (Z * string) :=
  match s with
  | String c s' =>
      if Ascii.eqb c "e" || Ascii.eqb c "E" then
        let '(neg, s1) := sign_part s' in
        let '(e, n, s2) := digit_part s1 in
        match n with
        | O => None
        | _ => Some (if neg then - e else e, s2)
        end
      else Some (0, s)
  | EmptyString => Some (0, s)
  end.

Definition pow10 (e : Z) : Q :=
  if 0 <=? e then inject_Z (10 ^ e) else / inject_Z (10 ^ (- e)).

(** The float a decimal literal without sign stands for. *)
Definition decimal_literal (s : string) : option Q :=
  let '(ip, ni, s1) := digit_part s in
  let '(fp, nf, s2) :=
    match s1 with
    | String "." s1' => digit_part s1'
    | _ => (0, O, s1)
    end in
  match (ni + nf)%nat with
  | O => None
  | _ =>
      match exponent_part s2 with
      | Some (e, EmptyString) =>
          Some (inject_Z (ip * 10 ^ Z.of_nat nf + fp)
                * pow10 (e - Z.of_nat nf))%Q
      | _ => None
      end
  end.

Definition special_literal (s : string) : option pyfloat :=
  let t := Text.lower s in
  if String.eqb t "inf" || String.eqb t "infinity" then Some (FInf false)
  else if String.eqb t "nan" then Some FNaN
  else None.

Definition negate (f : pyfloat) : pyfloat :=
  match f with
  | FFinite q => FFinite (- q)
  | FInf b => FInf (negb b)
  | FNaN => FNaN
  end.

Definition saturate (q : Q) : pyfloat :=
  if Qle_bool (inject_Z overflow_threshold) q then FInf false else FFinite q.

(** [float(s)] on text: surrounding white space is dropped, then comes an
    optional sign and either a decimal literal or one of inf, infinity,
    nan in any case.  Anything else raises [ValueError]. *)
Definition float_of_text (s : string) : result pyfloat :=
  let '(neg, body) := sign_part (Text.strip_chars Text.is_c_space s) in
  let r :=
    match special_literal body with
    | Some f => Some f
    | None => saturate <$> decimal_literal body
    end in
  match r with
  | Some f => Ok (if neg then negate f else f)
  | None => Raise ValueError
  end.

(** [float(x)] *)
Definition py_float (x : value) : result pyfloat :=
  match x with
  | VStr s => float_of_text s
  | VInt z =>
      if overflow_threshold <=? Z.abs z then Raise OverflowError
      else Ok (FFinite (inject_Z (nearest_double z)))
  | VFloat f => Ok f
  | VNone | VNaT | VDate _ _ _ => Raise TypeError
  end.

(** [round(f)] with one argument *)
Definition py_round (f : pyfloat) : result Z :=
  match f with
  | FFinite q => Ok (round_half_even q)
  | FInf _ => Raise OverflowError
  | FNaN => Raise ValueError
  end.

End Num.

(** [lambda x: round(float(x)) if pd.notnull(x) else None], the function the
    Loader applies to the cells of [screen_size_in]. *)
Definition screen_size_lambda (x : value) : result value :=
  if pd_notnull x then
    f ← Num.py_float x; n ← Num.py_round f; Ok (VInt n)
  else Ok VNone.

(** ** Text of a scalar *)

Module Repr.

(** [n] decimals of [num / den], for [0 <= num < den]; stops early when the
    expansion ends. *)
Fixpoint decimals (n : nat) (num den : Z) : string :=
  match n with
  | O => ""
  | S n' =>
      if num =? 0 then ""
      else pretty (num * 10 / den) +:+ decimals n' (num * 10 mod den) den
  end.

(** Positional notation of a finite float, with at least one and at most
    17 decimals: what Python writes for a float with a short decimal form
    between [1e-4] and [1e16]. *)
Definition float_text (q : Q) : string :=
  let a := Qabs q in
  let ip := Qfloor a in
  let den := Z.pos (Qden a) in
  let frac := decimals 17 (Qnum a - ip * den) den in
  (if Qle_bool 0 q then "" else "-")
    +:+ pretty ip +:+ "." +:+ (if String.eqb frac "" then "0" else frac).

Definition pad2 (z : Z) : string :=
  if z <? 10 then "0" +:+ pretty z else pretty z.

Definition pad4 (z : Z) : string :=
  (if z <? 10 then "000" else if z <? 100 then "00"
   else if z <? 1000 then "0" else "") +:+ pretty z.

(** [str(x)], what [astype(str)] puts in place of the cell [x]. *)
Definition py_str (x : value) : string :=
  match x with
  | VStr s => s
  | VInt z => pretty z
  | VFloat (FFinite q) => float_text q
  | VFloat (FInf b) => if b then "-inf" else "inf"
  | VFloat FNaN => "nan"
  | VNone => "None"
  | VNaT => "NaT"
  | VDate y m d => pad4 y +:+ "-" +:+ pad2 m +:+ "-" +:+ pad2 d
  end.

End Repr.

(** ** Tables *)

(** A table: the ordered column labels and the rows, each row giving a cell
    to every column. *)
Record DataFrame : Type := {
  columns : list string;
  rows : list (gmap string value)
}.

(** [pd.DataFrame()] *)
Definition empty_frame : DataFrame := {| columns := []; rows := [] |}.

(** [df.empty]: some axis has length zero. *)
Definition df_empty (df : DataFrame) : bool :=
  match columns df, rows df with
  | [], _ | _, [] => true
  | _, _ => false
  end.

(** [len(df)] *)
Definition df_len (df : DataFrame) : nat := length (rows df).

Definition cell (c : string) (r : gmap string value) : value :=
  default VNaN (r !! c).

(** [df[c]], read *)
Definition get_column (c : string) (df : DataFrame) : result (list value) :=
  if bool_decide (c ∈ columns df) then Ok (map (cell c) (rows df))
  else Raise (KeyError c).

(** The cells pandas holds as numbers. *)
Definition is_number (x : value) : bool :=
  match x with
  | VInt _ | VFloat _ => true
  | _ => false
  end.

Definition is_int (x : value) : bool :=
  match x with
  | VInt _ => true
  | _ => false
  end.

(** A column of numbers (int64, float64) rather than of objects: it has
    cells and all of them are integers or floats, the missing number
    included.  A column without cells, as [pd.read_csv] and
    [pd.DataFrame(columns=...)] make it, is a column of objects. *)
Definition numeric_column (xs : list value) : bool :=
  match xs with
  | [] => false
  | _ => forallb is_number xs
  end.

(** The float an integer or [None] becomes in a column of floats. *)
Definition as_float (x : value) : value :=
  match x with
  | VInt z => VFloat (FFinite (inject_Z (Num.nearest_double z)))
  | VNone => VNaN
  | _ => x
  end.

(** An integer of the range of int64, or a cell that is no integer. *)
Definition fits_int64 (x : value) : bool :=
  match x with
  | VInt z => (- 2 ^ 63 <=? z) && (z <? 2 ^ 63)
  | _ => true
  end.

(** The column [Series.apply] makes of the results of the calls.  Results
    that are integers, floats or [None], with a number among them and not
    all of them integers, make a column of floats: an integer becomes the
    float of the same value and [None] the missing number.  Any other list
    of results is kept as it is: integers only, [None] only, or a text or a
    date among them.  The integers are those of the range of int64; what
    pandas makes of a larger one depends on its place among the results
    and is left out, such a list being kept as it is. *)
Definition infer_column (xs : list value) : list value :=
  if forallb (fun x => is_number x || bool_decide (x = VNone)) xs
     && forallb fits_int64 xs
     && existsb is_number xs
     && existsb (fun x => negb (is_int x)) xs
  then map as_float xs
  else xs.

(** [df[c] = series]: the column is replaced, or added last when new. *)
Definition set_column (c : string) (series : list value) (df : DataFrame)
  : DataFrame :=
  {| columns :=
       if bool_decide (c ∈ columns df) then columns df else columns df ++ [c];
     rows := zip_with (fun r v => <[c := v]> r) (rows df) series |}.

(** [df[mask]] with a boolean mask *)
Fixpoint select_rows {A : Type} (rs : list A) (mask : list bool) : list A :=
  match rs, mask with
  | r :: rs', b :: mask' =>
      if b then r :: select_rows rs' mask' else select_rows rs' mask'
  | _, _ => []
  end.

Definition boolean_index (df : DataFrame) (mask : list bool) : DataFrame :=
  {| columns := columns df; rows := select_rows (rows df) mask |}.

(** The labels of [xs], each once, in the order of first appearance. *)
Fixpoint unique_labels (xs : list string) : list string :=
  match xs with
  | [] => []
  | x :: xs' => x :: filter (fun y => y ≠ x) (unique_labels xs')
  end.

(** The rows of the frames one after the other, under the union of their
    columns, a missing number where a frame lacks a column: what
    [pd.concat(dfs, ignore_index=True)] gives on frames with distinct
    labels whose columns hold objects.  It stands for [pd.concat] in the
    samples. *)
Definition concat_rows (dfs : list DataFrame) : result DataFrame :=
  let cols := unique_labels (concat (map columns dfs)) in
  Ok {| columns := cols;
        rows := concat (map (fun df =>
                  map (fun r => list_to_map (map (fun c => (c, cell c r)) cols))
                      (rows df)) dfs) |}.

(** ** Logging *)

Inductive level : Type := INFO | WARNING | ERROR.

(** The records the notebook emits, by the message they carry. *)
Inductive event : Type :=
  | MissingDataDirectory (platform : string)
  | MissingColumns (file : string) (missing : list string)
  | ErrorLoading (file : string) (e : exn)
  | LoadingMonitorData
  | NoCleanedData
  | LoadedRecords (n : nat)
  | FoundEntries (n : nat)
  | NoCrossPlatformMonitors
  | CriticalError (e : exn).

Record log_record : Type := {
  log_level : level;
  log_event : event;
  exc_info : bool
}.

Definition warning (ev : event) : log_record :=
  {| log_level := WARNING; log_event := ev; exc_info := false |}.
Definition info (ev : event) : log_record :=
  {| log_level := INFO; log_event := ev; exc_info := false |}.
Definition error (ev : event) : log_record :=
  {| log_level := ERROR; log_event := ev; exc_info := false |}.

(** ** The module namespace *)

(** What a global name of the notebook can be bound to. *)
Inductive pyobj : Type :=
  | PyModule
  | PyObject
  | PyFrameFunction
  | PyCellFunction (f : value -> result value).

(** The global names the cells of the notebook bind: the imports, the
    logger, the three paths and the three functions. *)
Definition notebook_globals : gmap string pyobj :=
  list_to_map
    [("pd", PyModule); ("plt", PyModule); ("sns", PyModule);
     ("Path", PyObject); ("re", PyModule); ("logging", PyModule);
     ("logger", PyObject); ("PROJECT_ROOT", PyObject);
     ("CLEANED_DATA_PATH", PyObject); ("RESULTS_PATH", PyObject);
     ("load_cleaned_data", PyFrameFunction);
     ("filter_products_by_platforms", PyFrameFunction);
     ("analyze_price_differences", PyFrameFunction)].

(** Evaluating a global name that is no builtin. *)
Definition load_name (ns : gmap string pyobj) (name : string) : result pyobj :=
  match ns !! name with
  | Some o => Ok o
  | None => Raise (NameError name)
  end.

(** [series.apply(g)] for a function [g]: [g] is called on every cell in
    turn, and the results make the new column. *)
Definition apply_cells (g : value -> result value) (series : list value)
  : result (list value) :=
  results ← mapM g series; Ok (infer_column results).

(** [series.apply(f)] for what a name is bound to. *)
Definition series_apply (f : pyobj) (series : list value)
  : result (list value) :=
  match f with
  | PyCellFunction g => apply_cells g series
  | _ => Raise TypeError
  end.

(** ** The cleaned data on disk *)

(** What [pd.read_csv] makes of a file: the header and the records. *)
Record csv_table : Type := {
  header : list string;
  records : list (list value)
}.

(** A file of the directory: its path, and the table [pd.read_csv] returns
    for it, or nothing when [pd.read_csv] fails on it (no data, malformed
    content, a read error). *)
Record csv_file : Type := {
  file_path : string;
  read_csv : option csv_table
}.

(** The directory [CLEANED_DATA_PATH / platform / 'monitors']: absent, not
    accessible (the call of [exists] raises [PermissionError], as it does
    up to Python 3.12 when a parent directory may not be searched), or
    holding the files [glob('*.csv')] lists. *)
Inductive directory : Type :=
  | DirMissing
  | DirFault
  | DirFiles (files : list csv_file).

(** ** Loader *)

Definition platforms : list string := ["ebay"; "flipkart"].

Definition required_columns : list string :=
  ["title"; "price"; "screen_size_in"; "aspect_ratio";
   "refresh_rate_hz"; "response_time_ms"; "brand"; "collection_date"].

(** [col.strip().lower().replace(" ", "_")] *)
Definition normalize_column (col : string) : string :=
  Text.replace_char " " "_" (Text.lower (Text.strip col)).

(** The frame of a parsed file once [df.columns] is reassigned. *)
Definition frame_of_csv (t : csv_table) : DataFrame :=
  let cols := map normalize_column (header t) in
  {| columns := cols;
     rows := map (fun rec => list_to_map (zip cols rec)) (records t) |}.

(** [required_columns - set(df.columns)] *)
Definition missing_cols (df : DataFrame) : list string :=
  filter (fun c => c ∉ columns df) required_columns.

(** How the body of the [try] ends for one file, when it does not raise. *)
Inductive file_outcome : Type :=
  | SkippedMissing (missing : list string)
  | Prepared (df : DataFrame).

(** ** Effects: the log and the chart files *)

(** A saved figure: [plt.savefig(RESULTS_PATH / 'monitors' / file_name)]
    with the title and the bars it shows, one per date and platform. *)
Record chart : Type := {
  chart_file : string;
  chart_heading : string;
  chart_bars : list (value * value * pyfloat)
}.

Record world : Type := {
  log : list log_record;
  charts : list chart
}.

Definition initial_world : world := {| log := []; charts := [] |}.

(** A piece of the program: it changes the world and returns or raises. *)
Definition prog (A : Type) : Type := world -> world * result A.

Definition prog_ret {A : Type} (a : A) : prog A := fun w => (w, Ok a).

Definition prog_bind {A B : Type} (m : prog A) (k : A -> prog B) : prog B :=
  fun w =>
    match m w with
    | (w', Ok a) => k a w'
    | (w', Raise e) => (w', Raise e)
    end.

#[global] Instance prog_mret : MRet prog := fun A a => prog_ret a.
#[global] Instance prog_mbind : MBind prog := fun A B k m => prog_bind m k.

(** [raise e] *)
Definition raise {A : Type} (e : exn) : prog A := fun w => (w, Raise e).

(** A computation without effects, inside the program. *)
Definition lift {A : Type} (r : result A) : prog A := fun w => (w, r).

(** [logger.info], [logger.warning], [logger.error] *)
Definition emit (r : log_record) : prog unit :=
  fun w => ({| log := log w ++ [r]; charts := charts w |}, Ok tt).

(** What lies outside the program.  For each call that reaches the file
    system or draws, what the call ends in, given what the run has logged
    and written when the call is made: nothing when it returns, or the
    exception it raises.  [mkdir_error] is for [Path.mkdir] on a path (an
    [OSError]: no parent, not a directory, no permission), [plot_error] for
    the calls that draw the figure of a chart, from [plt.figure] to
    [plt.tight_layout], [savefig_error] for [plt.savefig] (an [OSError]
    when the file cannot be written, as with a name that is too long). *)
Record outside : Type := {
  mkdir_error : world -> string -> option exn;
  plot_error : world -> chart -> option exn;
  savefig_error : world -> chart -> option exn
}.

(** A call that returns or raises, as [outside] says. *)
Definition attempt (o : world -> option exn) : prog unit :=
  fun w =>
    match o w with
    | Some e => (w, Raise e)
    | None => (w, Ok tt)
    end.

(** [RESULTS_PATH] and [RESULTS_PATH / 'monitors'] *)
Definition results_dir : string := "results".
Definition monitors_dir : string := "results/monitors".

(** [path.mkdir(exist_ok=True)], with or without [parents=True]. *)
Definition mkdir (o : outside) (path : string) : prog unit :=
  attempt (fun w => mkdir_error o w path).

(** [plt.savefig(RESULTS_PATH / 'monitors' / file_name)]: the chart is
    written, or the call raises and nothing is written. *)
Definition savefig (o : outside) (c : chart) : prog unit :=
  fun w =>
    match savefig_error o w c with
    | Some e => (w, Raise e)
    | None => ({| log := log w; charts := charts w ++ [c] |}, Ok tt)
    end.

(** [try: body except Exception as e: handler(e)] *)
Definition try_except {A : Type} (body : prog A) (handler : exn -> prog A)
  : prog A :=
  fun w =>
    match body w with
    | (w', Raise e) => if is_Exception e then handler e w' else (w', Raise e)
    | done => done
    end.

(** [for x in xs: acc = body(acc, x)] *)
Fixpoint for_each {A S : Type} (xs : list A) (body : S -> A -> prog S) (acc : S)
  : prog S :=
  match xs with
  | [] => mret acc
  | x :: xs' => acc' ← body acc x; for_each xs' body acc'
  end.

Section Pipeline.

(** [pd.to_datetime(x, errors='coerce')] followed by [.dt.date], on one
    cell: a date, or the missing date. *)
Variable to_date : value -> value.

(** [str(x)] as [astype(str)] applies it to one cell. *)
Variable astype_str : value -> string.

(** [pd.concat(dfs, ignore_index=True)] on frames collected, at least one:
    the table, or the exception raised. *)
Variable pd_concat : list DataFrame -> result DataFrame.

(** The file system and the drawing library, as the run meets them. *)
Variable env : outside.

(** The body of the [try] statement of [load_cleaned_data], up to the
    last statement of each branch. *)
Definition prepare_file (ns : gmap string pyobj) (platform : string)
    (file : csv_file) : result file_outcome :=
  t ← match read_csv file with
      | Some t => Ok t
      | None => Raise ReadError
      end;
  let df := frame_of_csv t in
  match missing_cols df with
  | (_ :: _) as missing => Ok (SkippedMissing missing)
  | [] =>
      let df := set_column "platform"
                  (replicate (df_len df) (VStr platform)) df in
      brand ← get_column "brand" df;
      f ← load_name ns "normalize_brand";
      brand' ← series_apply f brand;
      let df := set_column "brand" brand' df in
      ratio ← get_column "aspect_ratio" df;
      g ← load_name ns "normalize_aspect_ratio";
      ratio' ← series_apply g ratio;
      let df := set_column "aspect_ratio" ratio' df in
      size ← get_column "screen_size_in" df;
      size' ← apply_cells screen_size_lambda size;
      let df := set_column "screen_size_in" size' df in
      date ← get_column "collection_date" df;
      let df := set_column "collection_date" (map to_date date) df in
      Ok (Prepared df)
  end.

(** One turn of the inner loop: the [try] statement. *)
Definition load_file (ns : gmap string pyobj) (platform : string)
    (dfs : list DataFrame) (file : csv_file) : prog (list DataFrame) :=
  try_except
    (o ← lift (prepare_file ns platform file);
     match o with
     | SkippedMissing missing =>
         emit (warning (MissingColumns (file_path file) missing));;
         mret dfs
     | Prepared df => mret (dfs ++ [df])
     end)
    (fun e => emit (error (ErrorLoading (file_path file) e));; mret dfs).

(** One turn of the outer loop. *)
Definition load_platform (ns : gmap string pyobj)
    (disk : string -> directory) (dfs : list DataFrame) (platform : string)
  : prog (list DataFrame) :=
  match disk platform with
  | DirFault => raise (PermissionError platform)
  | DirMissing => emit (warning (MissingDataDirectory platform));; mret dfs
  | DirFiles files => for_each files (load_file ns platform) dfs
  end.

(** [load_cleaned_data()] *)
Definition load_cleaned_data (ns : gmap string pyobj)
    (disk : string -> directory) : prog DataFrame :=
  dfs ← for_each platforms (load_platform ns disk) [];
  match dfs with
  | [] => mret empty_frame
  | _ => lift (pd_concat dfs)
  end.

(** *** Matcher *)

(** [x + t] for a cell [x] of a column of objects and a text [t]: text is
    concatenated, a missing cell gives a missing number, any other cell
    is a type error. *)
Definition add_text (x : value) (t : string) : result value :=
  if pd_notnull x then
    match x with
    | VStr s => Ok (VStr (s +:+ t))
    | _ => Raise TypeError
    end
  else Ok VNaN.

(** [series + "..."] *)
Definition series_add_text (xs : list value) (t : string)
  : result (list value) :=
  mapM (fun x => add_text x t) xs.

(** [df['brand'] + "..."] on a column of the table: a column of numbers
    cannot take text ([TypeError], whatever the cells, the missing number
    included); a column of objects is added to cell by cell. *)
Definition column_add_text (xs : list value) (t : string)
  : result (list value) :=
  if numeric_column xs then Raise TypeError else series_add_text xs t.

(** [df.groupby(...)[c]]: the column selected on the groups. *)
Definition groupby_select (c : string) (df : DataFrame)
  : result (list value) :=
  if bool_decide (c ∈ columns df) then Ok (map (cell c) (rows df))
  else Raise (KeyError ("Column not found: " +:+ c)).

(** [series + other.astype(str)], cell by cell. *)
Definition series_add (xs : list value) (ts : list string)
  : result (list value) :=
  mapM (fun xt => add_text (fst xt) (snd xt)) (zip xs ts).

(** The right-hand side of the assignment to [df['product_id']]. *)
Definition product_id_series (df : DataFrame) : result (list value) :=
  brand ← get_column "brand" df;
  s ← column_add_text brand "|";
  size ← get_column "screen_size_in" df;
  s ← series_add s (map astype_str size);
  s ← series_add_text s "|";
  ratio ← get_column "aspect_ratio" df;
  s ← series_add s (map astype_str ratio);
  s ← series_add_text s "|";
  rate ← get_column "refresh_rate_hz" df;
  s ← series_add s (map astype_str rate);
  s ← series_add_text s "|";
  time ← get_column "response_time_ms" df;
  series_add s (map astype_str time).

(** [df['product_id'] = ...]: the frame passed in, after the assignment. *)
Definition assign_product_id (df : DataFrame) : result DataFrame :=
  ids ← product_id_series df;
  Ok (set_column "product_id" ids df).

(** [df.groupby('product_id')['platform'].unique()] on the pairs of
    identifier and platform of the rows: per identifier the platforms, each
    once, in the order of appearance.  A row whose identifier is missing is
    in no group; the identifiers are text or missing. *)
Fixpoint groupby_unique (pairs : list (value * value))
  : gmap string (list value) :=
  match pairs with
  | [] => ∅
  | (k, p) :: rest =>
      let groups := groupby_unique rest in
      match k with
      | VStr s =>
          <[s := p :: filter (fun x => x ≠ p) (default [] (groups !! s))]>
            groups
      | _ => groups
      end
  end.

(** [t in set(x)] for a text [t] *)
Definition has_text (x : list value) (t : string) : bool :=
  existsb (fun v => match v with
                    | VStr s => String.eqb s t
                    | _ => false
                    end) x.

(** [lambda x: len(set(x) & {'ebay', 'flipkart'}) >= 2] *)
Definition on_both_platforms (x : list value) : bool :=
  (2 <=? length (filter (fun t => has_text x t = true)
                        ["ebay"; "flipkart"]))%nat.

(** [platform_groups[platform_groups.apply(...)].index.tolist()] *)
Definition cross_platform_ids (groups : gmap string (list value))
  : list string :=
  map fst (filter (fun kv => on_both_platforms (snd kv) = true)
                  (map_to_list groups)).

(** [series.isin(labels)] on one cell *)
Definition isin (labels : list string) (x : value) : bool :=
  match x with
  | VStr s => bool_decide (s ∈ labels)
  | _ => false
  end.

(** [filter_products_by_platforms(df)] *)
Definition filter_products_by_platforms (df : DataFrame) : result DataFrame :=
  df ← assign_product_id df;
  ids ← get_column "product_id" df;
  platform ← groupby_select "platform" df;
  let platform_groups := groupby_unique (zip ids platform) in
  let cross_platform := cross_platform_ids platform_groups in
  ids ← get_column "product_id" df;
  Ok (boolean_index df (map (isin cross_platform) ids)).

(** *** Analyzer *)

(** Sum of two floats. *)
Definition fadd (a b : pyfloat) : pyfloat :=
  match a, b with
  | FNaN, _ | _, FNaN => FNaN
  | FInf x, FInf y => if Bool.eqb x y then FInf x else FNaN
  | FInf x, _ | _, FInf x => FInf x
  | FFinite x, FFinite y => FFinite (x + y)
  end.

(** A float divided by a positive count. *)
Definition fdiv_count (a : pyfloat) (n : nat) : pyfloat :=
  match a with
  | FFinite x => FFinite (Qred (x / inject_Z (Z.of_nat n)))
  | other => other
  end.

(** A price cell as a number; a missing cell is no number and is skipped,
    a cell that is neither is a type error. *)
Definition price_number (x : value) : result (option pyfloat) :=
  match x with
  | VInt z => Ok (Some (FFinite (inject_Z z)))
  | VFloat FNaN | VNone | VNaT => Ok None
  | VFloat f => Ok (Some f)
  | VStr _ | VDate _ _ _ => Raise TypeError
  end.

(** [.mean()] of one group: the sum of the numbers over their count, the
    missing number when the group has none. *)
Definition mean (prices : list value) : result pyfloat :=
  nums ← mapM price_number prices;
  match omap id nums with
  | [] => Ok FNaN
  | xs => Ok (fdiv_count (foldr fadd (FFinite 0) xs) (length xs))
  end.

(** The group a row belongs to under
    [groupby(['product_id', 'platform', 'collection_date'])]: none when one
    of the three cells is missing. *)
Definition group_key (r : gmap string value)
  : option (string * value * value) :=
  match cell "product_id" r with
  | VStr k =>
      if pd_notnull (cell "platform" r) && pd_notnull (cell "collection_date" r)
      then Some (k, cell "platform" r, cell "collection_date" r)
      else None
  | _ => None
  end.

(** Puts [v] first in the group of [k], opening the group when new. *)
Fixpoint add_to_group {K V : Type} `{EqDecision K} (k : K) (v : V)
    (groups : list (K * list V)) : list (K * list V) :=
  match groups with
  | [] => [(k, [v])]
  | (k', vs) :: groups' =>
      if decide (k = k') then (k', v :: vs) :: groups'
      else (k', vs) :: add_to_group k v groups'
  end.

(** The groups of a list of keyed items, each group in the order of the
    list. *)
Fixpoint group_by {K V : Type} `{EqDecision K} (pairs : list (K * V))
  : list (K * list V) :=
  match pairs with
  | [] => []
  | (k, v) :: rest => add_to_group k v (group_by rest)
  end.

(** The keyed prices of a frame: the rows that fall in a group. *)
Definition keyed_prices (df : DataFrame)
  : list ((string * value * value) * value) :=
  omap (fun r => (fun k => (k, cell "price" r)) <$> group_key r) (rows df).

(** [filtered_df.groupby(['product_id', 'platform',
    'collection_date'])['price'].mean()]: the daily aggregate. *)
Definition daily_aggregate (df : DataFrame)
  : result (list ((string * value * value) * pyfloat)) :=
  _ ← get_column "product_id" df;
  _ ← get_column "platform" df;
  _ ← get_column "collection_date" df;
  _ ← groupby_select "price" df;
  mapM (fun g => m ← mean (snd g); Ok (fst g, m))
       (group_by (keyed_prices df)).

(** The aggregate of [k], as [unstack(level='platform')] lays it out: one
    cell per date and platform. *)
Definition product_table (grouped : list ((string * value * value) * pyfloat))
    (k : string) : list (value * value * pyfloat) :=
  omap (fun g => match g with
                 | ((k', p, d), m) =>
                     if String.eqb k' k then Some (d, p, m) else None
                 end) grouped.

Fixpoint insert_label (x : string) (xs : list string) : list string :=
  match xs with
  | [] => [x]
  | y :: ys => if String.leb x y then x :: xs else y :: insert_label x ys
  end.

(** The distinct labels in increasing order, as [groupby(level=0)] visits
    them. *)
Definition sorted_labels (xs : list string) : list string :=
  foldr insert_label [] (unique_labels xs).

(** The chart of a product: the file, the title and the bars, one per
    date and platform of the aggregate. *)
Definition chart_of (grouped : list ((string * value * value) * pyfloat))
    (product_id : string) : chart :=
  {| chart_file := file_name product_id;
     chart_heading := chart_title product_id;
     chart_bars := product_table grouped product_id |}.

(** The body of the loop over the products: the figure is drawn, the
    directory of the charts is created if need be, and the figure is
    saved, then closed. *)
Definition plot_product (grouped : list ((string * value * value) * pyfloat))
    (product_id : string) : prog unit :=
  let c := chart_of grouped product_id in
  attempt (fun w => plot_error env w c);;
  mkdir env monitors_dir;;
  savefig env c.

(** [analyze_price_differences(filtered_df)] *)
Definition analyze_price_differences (filtered_df : DataFrame) : prog unit :=
  if df_empty filtered_df then emit (info NoCrossPlatformMonitors)
  else
    grouped ← lift (daily_aggregate filtered_df);
    for_each (sorted_labels (map (fun g => fst (fst (fst g))) grouped))
             (fun _ product_id => plot_product grouped product_id) tt.

(** *** Main block *)

(** The suite of the [try] statement. [exit(1)] raises [SystemExit]. *)
Definition main_body (ns : gmap string pyobj) (disk : string -> directory)
  : prog unit :=
  emit (info LoadingMonitorData);;
  df ← load_cleaned_data ns disk;
  (if df_empty df
   then emit (error NoCleanedData);; raise (SystemExit 1)
   else mret tt);;
  emit (info (LoadedRecords (df_len df)));;
  filtered_df ← lift (filter_products_by_platforms df);
  emit (info (FoundEntries (df_len filtered_df)));;
  analyze_price_differences filtered_df.

(** The [try] statement of the main block, with its handler. *)
Definition main (ns : gmap string pyobj) (disk : string -> directory)
  : prog unit :=
  try_except (main_body ns disk)
    (fun e => emit {| log_level := ERROR; log_event := CriticalError e;
                      exc_info := true |}).

(** The main block: the two directories of results are created, outside
    the [try] statement, which follows. *)
Definition main_block (ns : gmap string pyobj) (disk : string -> directory)
  : prog unit :=
  mkdir env results_dir;;
  mkdir env monitors_dir;;
  main ns disk.

(** The exit status of the process, from how the main block ends. *)
Definition exit_status (r : result unit) : Z :=
  match r with
  | Ok _ => 0
  | Raise (SystemExit c) => c
  | Raise _ => 1
  end.

(** A run from the [try] statement on, that is once the two directories of
    results are there: the final log, the chart files written and the exit
    status. *)
Definition run (ns : gmap string pyobj) (disk : string -> directory)
  : world * Z :=
  let wr := main ns disk initial_world in
  (fst wr, exit_status (snd wr)).

(** A run of the notebook as a script, from the first statement of the
    main block: the final log, the chart files written and the exit
    status.  An exception that leaves the main block ends the process with
    status 1. *)
Definition run_script (ns : gmap string pyobj) (disk : string -> directory)
  : world * Z :=
  let wr := main_block ns disk initial_world in
  (fst wr, exit_status (snd wr)).

End Pipeline.

(** ** Reading the Matcher and the Analyzer row by row

    The notions the properties below are stated with. *)

Definition key_columns : list string :=
  ["brand"; "screen_size_in"; "aspect_ratio"; "refresh_rate_hz";
   "response_time_ms"].

(** Text, or a missing cell. *)
Definition text_or_missing (x : value) : Prop :=
  match x with
  | VStr _ => True
  | _ => pd_notnull x = false
  end.

(** A table the Matcher can work on: the five specification columns and
    the platform column are there, and a brand is text or missing. *)
Definition matcher_input (df : DataFrame) : Prop :=
  Forall (fun c => c ∈ columns df) (key_columns ++ ["platform"])
  ∧ Forall (fun r => text_or_missing (cell "brand" r)) (rows df).

(** Some brand of the table is text: the brand column is then a column of
    objects, which takes text cell by cell. *)
Definition some_text_brand (df : DataFrame) : Prop :=
  Exists (fun r => ∃ b, cell "brand" r = VStr b) (rows df).

(** The identifier of a row: the five fields joined by ["|"] when the
    brand is text, the missing number otherwise. *)
Definition identity_key (astype_str : value -> string)
    (r : gmap string value) : value :=
  match cell "brand" r with
  | VStr b =>
      VStr (b +:+ "|" +:+ astype_str (cell "screen_size_in" r)
              +:+ "|" +:+ astype_str (cell "aspect_ratio" r)
              +:+ "|" +:+ astype_str (cell "refresh_rate_hz" r)
              +:+ "|" +:+ astype_str (cell "response_time_ms" r))
  | _ => VNaN
  end.

(** The row with its identifier in the column [product_id]. *)
Definition keyed (astype_str : value -> string) (r : gmap string value)
  : gmap string value :=
  <["product_id" := identity_key astype_str r]> r.

(** [a == b] on identifiers: equal texts; the missing number equals
    nothing, itself included. *)
Definition same_key (a b : value) : bool :=
  match a, b with
  | VStr x, VStr y => String.eqb x y
  | _, _ => false
  end.

(** The platforms observed for the identifier [k] among the rows [rs]. *)
Definition platform_set (astype_str : value -> string)
    (rs : list (gmap string value)) (k : value) : gset string :=
  list_to_set
    (omap (fun r =>
             if same_key (identity_key astype_str r) k
             then match cell "platform" r with
                  | VStr p => Some p
                  | _ => None
                  end
             else None) rs).

Definition known_platforms : gset string := {[ "ebay"; "flipkart" ]}.

(** The identifier of [r] is observed on both known platforms. *)
Definition cross_platform (astype_str : value -> string)
    (rs : list (gmap string value)) (r : gmap string value) : Prop :=
  (2 <= size (platform_set astype_str rs (identity_key astype_str r)
              ∩ known_platforms))%nat.

(** A table the Analyzer can aggregate: the grouping columns and the
    price are there, and every price is a finite number or the missing
    number. *)
Definition finite_number (x : value) : Prop :=
  match x with
  | VInt _ | VFloat (FFinite _) => True
  | _ => False
  end.

Definition analyzer_input (df : DataFrame) : Prop :=
  Forall (fun c => c ∈ columns df)
         ["product_id"; "platform"; "collection_date"; "price"]
  ∧ Forall (fun r => finite_number (cell "price" r) ∨ cell "price" r = VNaN)
           (rows df).

(** The number a cell holds. *)
Definition number_of (x : value) : Q :=
  match x with
  | VInt z => inject_Z z
  | VFloat (FFinite q) => q
  | _ => 0
  end.

(** The number in the price cell of a row. *)
Definition price_of (r : gmap string value) : Q := number_of (cell "price" r).

(** The rows of [df] that share the triple of identifier, platform and
    date. *)
Definition rows_sharing (df : DataFrame) (k : string) (p d : value)
  : list (gmap string value) :=
  filter (fun r => cell "product_id" r = VStr k ∧ cell "platform" r = p
                   ∧ cell "collection_date" r = d) (rows df).

Definition Qsum (qs : list Q) : Q := foldr Qplus 0%Q qs.

(** The arithmetic mean of the prices of [rs]. *)
Definition mean_price (rs : list (gmap string value)) : Q :=
  (Qsum (map price_of rs) / inject_Z (Z.of_nat (length rs)))%Q.

(** The entry of the aggregate for a triple. *)
Definition aggregate_at (grouped : list ((string * value * value) * pyfloat))
    (k : string) (p d : value) : option pyfloat :=
  snd <$> find (fun g => bool_decide (fst g = (k, p, d))) grouped.

(** A text or the missing number, from an optional text: the shape of
    every intermediate cell while the identifier is put together. *)
Definition opt_text (o : option string) : value :=
  match o with
  | Some s => VStr s
  | None => VNaN
  end.

(** The brand of a row when it is text. *)
Definition brand_text (r : gmap string value) : option string :=
  match cell "brand" r with
  | VStr b => Some b
  | _ => None
  end.

#[global] Instance cross_platform_dec astype_str rs r :
  Decision (cross_platform astype_str rs r).
Proof. unfold cross_platform. apply _. Defined.

(** The prices collected in the group of [k]. *)
Definition group_lookup {K V : Type} `{EqDecision K}
    (groups : list (K * list V)) (k : K) : option (list V) :=
  snd <$> find (fun g => bool_decide (fst g = k)) groups.

(** The mean of the numbers in a group. *)
Definition average (vs : list value) : Q :=
  Qred (Qsum (map number_of vs) / inject_Z (Z.of_nat (length vs))).

(** The prices that are there. *)
Definition present (vs : list value) : list value :=
  filter (fun v => pd_notnull v = true) vs.

(** The mean of the prices that are there: their sum over their count, or
    the missing number when none is there. *)
Definition mean_of_present (vs : list value) : pyfloat :=
  match present vs with
  | [] => FNaN
  | ps => FFinite (average ps)
  end.

(** The rows with a price. *)
Definition priced (rs : list (gmap string value))
  : list (gmap string value) :=
  filter (fun r => pd_notnull (cell "price" r) = true) rs.

(** The world after the records [l] are logged. *)
Definition extend (w : world) (l : list log_record) : world :=
  {| log := log w ++ l; charts := charts w |}.

(** The record the handler of the main block emits. *)
Definition critical (e : exn) : log_record :=
  {| log_level := ERROR; log_event := CriticalError e; exc_info := true |}.

(** The values the conversion of [screen_size_in] is meant for: a cell
    that holds the finite number [q], as an integer a double represents
    exactly, as a float, or as text [float] reads as [q]. *)
Definition holds_number (x : value) (q : Q) : Prop :=
  match x with
  | VInt z => Z.abs z <= 2 ^ 53 ∧ q = inject_Z z
  | VFloat (FFinite q') => q = q'
  | VStr s => Num.float_of_text s = Ok (FFinite q)
  | _ => False
  end.

(** Text [float] does not accept. *)
Definition non_numeric_text (x : value) : Prop :=
  match x with
  | VStr s => Num.float_of_text s = Raise ValueError
  | _ => False
  end.


(** A record of the Loader, the Matcher or the Analyzer: it carries no
    traceback. Only the handler of the main block logs one. *)
Definition plain (r : log_record) : Prop := exc_info r = false.

(** ** Sample data *)

Definition listing_columns : list string :=
  ["title"; "price"; "screen_size_in"; "aspect_ratio"; "refresh_rate_hz";
   "response_time_ms"; "brand"; "collection_date"; "platform"].

Definition listing (brand : value) (size : value) (platform : string)
    (date : value) (price : Z) : gmap string value :=
  list_to_map
    [("title", VStr "monitor"); ("price", VInt price);
     ("screen_size_in", size); ("aspect_ratio", VStr "16:9");
     ("refresh_rate_hz", VInt 144); ("response_time_ms", VInt 1);
     ("brand", brand); ("collection_date", date);
     ("platform", VStr platform)].

(** A Dell 24 on both platforms, a Dell 27 on ebay only. *)
Definition sample_table : DataFrame :=
  {| columns := listing_columns;
     rows := [listing (VStr "Dell") (VInt 24) "ebay" (VDate 2024 1 1) 200;
              listing (VStr "Dell") (VInt 24) "flipkart" (VDate 2024 1 1) 19000;
              listing (VStr "Dell") (VInt 27) "ebay" (VDate 2024 1 1) 250] |}.

(** Two listings without a brand, one per platform, next to a branded
    one. *)
Definition null_brand_table : DataFrame :=
  {| columns := listing_columns;
     rows := [listing (VStr "Dell") (VInt 24) "ebay" (VDate 2024 1 1) 200;
              listing VNaN (VInt 24) "ebay" (VDate 2024 1 1) 210;
              listing VNaN (VInt 24) "flipkart" (VDate 2024 1 1) 19000] |}.

(** Two ebay listings of one product on one day, and a third without a
    date, with the identifier already assigned. *)
Definition two_ebay_prices : DataFrame :=
  {| columns := listing_columns ++ ["product_id"];
     rows := map (keyed Repr.py_str)
               [listing (VStr "Dell") (VInt 24) "ebay" (VDate 2024 1 1) 200;
                listing (VStr "Dell") (VInt 24) "ebay" (VDate 2024 1 1) 220;
                listing (VStr "Dell") (VInt 24) "ebay" VNaT 999] |}.

(** A file with all required columns, and one without the brand. *)
Definition complete_file : csv_file :=
  {| file_path := "data/cleaned/ebay/monitors/a.csv";
     read_csv :=
       Some {| header := ["Title"; "Price"; "Screen Size In"; "Aspect Ratio";
                          "Refresh Rate Hz"; "Response Time Ms"; "Brand";
                          " Collection Date "];
               records := [[VStr "Dell 24"; VInt 200;
                            VFloat (FFinite (238 # 10)); VStr "16:9";
                            VInt 144; VInt 1; VStr "Dell";
                            VStr "2024-01-01"]] |} |}.

Definition brandless_file : csv_file :=
  {| file_path := "data/cleaned/ebay/monitors/b.csv";
     read_csv :=
       Some {| header := ["title"; "price"; "screen_size_in"; "aspect_ratio";
                          "refresh_rate_hz"; "response_time_ms";
                          "collection_date"];
               records := [[VStr "Dell 24"; VInt 200; VInt 24; VStr "16:9";
                            VInt 144; VInt 1; VStr "2024-01-01"]] |} |}.

(** A file with all required columns whose screen size is no number. *)
Definition odd_size_table : csv_table :=
  {| header := ["title"; "price"; "screen_size_in"; "aspect_ratio";
                "refresh_rate_hz"; "response_time_ms"; "brand";
                "collection_date"];
     records := [[VStr "Dell 24"; VInt 200; VStr "abc"; VStr "16:9";
                  VInt 144; VInt 1; VStr "Dell"; VStr "2024-01-01"]] |}.

Definition odd_size_file : csv_file :=
  {| file_path := "data/cleaned/ebay/monitors/c.csv";
     read_csv := Some odd_size_table |}.

(** The namespace of the notebook with the two normalizers bound to
    functions that return their argument. *)
Definition with_normalizers : gmap string pyobj :=
  <["normalize_brand" := PyCellFunction Ok]>
    (<["normalize_aspect_ratio" := PyCellFunction Ok]> notebook_globals).

(** Both files under ebay, no directory for flipkart. *)
Definition sample_disk (platform : string) : directory :=
  if String.eqb platform "ebay" then DirFiles [complete_file; brandless_file]
  else DirMissing.

(** The ebay directory is fine, the flipkart one cannot be accessed. *)
Definition faulty_disk (platform : string) : directory :=
  if String.eqb platform "ebay" then DirFiles [complete_file]
  else DirFault.


(** A date parser for the samples: it keeps dates and gives the missing
    date for anything else. *)
Definition keep_dates (x : value) : value :=
  match x with
  | VDate _ _ _ => x
  | _ => VNaT
  end.

(** Two ebay listings of one product on one day, the price of the second
    missing, with the identifier already assigned. *)
Definition missing_price_table : DataFrame :=
  {| columns := listing_columns ++ ["product_id"];
     rows := [keyed Repr.py_str
                (listing (VStr "Dell") (VInt 24) "ebay" (VDate 2024 1 1) 200);
              <["price" := VNaN]>
                (keyed Repr.py_str
                   (listing (VStr "Dell") (VInt 24) "ebay"
                            (VDate 2024 1 1) 220))] |}.

(** Every call that reaches the file system or draws returns. *)
Definition no_fault : outside :=
  {| mkdir_error := fun _ _ => None;
     plot_error := fun _ _ => None;
     savefig_error := fun _ _ => None |}.

(** The directory of results may not be created. *)
Definition no_results_dir : outside :=
  {| mkdir_error := fun _ path => Some (PermissionError path);
     plot_error := fun _ _ => None;
     savefig_error := fun _ _ => None |}.

(** ** Notions for the further properties *)

(** [f] applied to every character of [s]. *)
Fixpoint map_chars (f : ascii -> ascii) (s : string) : string :=
  match s with
  | EmptyString => EmptyString
  | String c s' => String (f c) (map_chars f s')
  end.

(** The first character of [s], if any, is not in [p]. *)
Definition head_clean (p : ascii -> bool) (s : string) : bool :=
  match s with
  | EmptyString => true
  | String c _ => negb (p c)
  end.

(** The last character of [s], if any, is not in [p]. *)
Fixpoint last_clean (p : ascii -> bool) (s : string) : bool :=
  match s with
  | EmptyString => true
  | String c EmptyString => negb (p c)
  | String _ s' => last_clean p s'
  end.

Definition is_upper (c : ascii) : bool := Text.in_range 65 90 c.

Definition is_blank (c : ascii) : bool := Ascii.eqb c " ".

(** What [normalize_column] does to one character that [strip] leaves:
    lower case, then an underscore for a blank. *)
Definition normalize_char (c : ascii) : ascii :=
  if Ascii.eqb (Text.lower_char c) " " then "_"%char else Text.lower_char c.

(** A file [pd.read_csv] fails on. *)
Definition unreadable_file : csv_file :=
  {| file_path := "data/cleaned/ebay/monitors/empty.csv"; read_csv := None |}.




(** A table with a brand that is a number. *)
Definition numeric_brand_table : DataFrame :=
  {| columns := listing_columns;
     rows := [listing (VInt 7) (VInt 24) "ebay" (VDate 2024 1 1) 200] |}.





(** * Properties *)

(** ** Chart file names *)

Lemma sanitized_title_cons c s :
  sanitized_title (String c s) = String (sanitize_char c) (sanitized_title s).
Proof.
  unfold sanitized_title, sanitize_char. simpl.
  destruct (Ascii.eqb c "|") eqn:E.
  - apply Ascii.eqb_eq in E. subst c. reflexivity.
  - destruct (Text.is_word c || Text.is_space c); reflexivity.
Qed.

Lemma sanitize_char_safe c :
  Text.is_word (sanitize_char c) || Text.is_space (sanitize_char c) = true.
Proof.
  unfold sanitize_char.
  destruct (Text.is_word c || Text.is_space c) eqn:E; [exact E | reflexivity].
Qed.

Lemma sanitized_title_get s : forall i,
  String.get i (sanitized_title s) = sanitize_char <$> String.get i s.
Proof.
  induction s as [|c s IH]; intros i.
  - reflexivity.
  - rewrite sanitized_title_cons.
    destruct i as [|i]; simpl; [reflexivity | apply IH].
Qed.

Lemma sanitized_title_length s :
  String.length (sanitized_title s) = String.length s.
Proof.
  induction s as [|c s IH]; [reflexivity|].
  rewrite sanitized_title_cons. simpl. congruence.
Qed.

Lemma sanitized_title_safe s :
  Text.all_chars (fun c => Text.is_word c || Text.is_space c)
    (sanitized_title s) = true.
Proof.
  induction s as [|c s IH]; [reflexivity|].
  rewrite sanitized_title_cons. simpl. rewrite sanitize_char_safe. exact IH.
Qed.

(** C3, as amended. The file name is ["Monitor_"], the sanitized identifier
    and [".png"]; the sanitized identifier has the length of the identifier
    and, position by position, the same character when that is a word
    character or white space and an underscore otherwise (the separator
    ["|"] included), so it holds word characters and white space only.
    The identifier [Dell|24|16:9|144|1] gives
    [Monitor_Dell_24_16_9_144_1.png]. *)
Theorem file_name_replaces_by_underscore (product_id : string) :
  file_name product_id = "Monitor_" +:+ sanitized_title product_id +:+ ".png"
  /\ String.length (sanitized_title product_id) = String.length product_id
  /\ (forall i, String.get i (sanitized_title product_id)
                = sanitize_char <$> String.get i product_id)
  /\ Text.all_chars (fun c => Text.is_word c || Text.is_space c)
       (sanitized_title product_id) = true
  /\ file_name "Dell|24|16:9|144|1" = "Monitor_Dell_24_16_9_144_1.png".
Proof.
  split; [reflexivity|].
  split; [apply sanitized_title_length|].
  split; [apply sanitized_title_get|].
  split; [apply sanitized_title_safe | reflexivity].
Qed.

(** C3, counterexample. For [Dell|24|16:9|144|1] the file name of the code
    is not the one the removal rule gives: the colon becomes an
    underscore, it is not removed. *)
Lemma file_name_is_not_stripped :
  file_name "Dell|24|16:9|144|1"
  <> spec_stripped_file_name "Dell|24|16:9|144|1".
Proof. vm_compute. discriminate. Qed.

(** ** Fallible computations over columns *)

Lemma bind_Ok {A B} (a : A) (k : A -> result B) : (Ok a ≫= k) = k a.
Proof. reflexivity. Qed.

Lemma mapM_map {A B C} (h : B -> result C) (f : A -> B) (g : A -> C)
    (l : list A) :
  Forall (fun x => h (f x) = Ok (g x)) l ->
  mapM h (map f l) = Ok (map g l).
Proof.
  induction 1 as [|x l Hx _ IH]; [reflexivity|].
  simpl. rewrite Hx. rewrite bind_Ok, IH. reflexivity.
Qed.

Lemma get_column_ok c df :
  c ∈ columns df -> get_column c df = Ok (map (cell c) (rows df)).
Proof. intros H. unfold get_column. rewrite bool_decide_eq_true_2; done. Qed.

(** ** The identifier column *)

Lemma add_text_opt o t :
  add_text (opt_text o) t = Ok (opt_text ((fun s => s +:+ t) <$> o)).
Proof. destruct o; reflexivity. Qed.

Lemma add_text_brand r t :
  text_or_missing (cell "brand" r) ->
  add_text (cell "brand" r) t
  = Ok (opt_text ((fun s => s +:+ t) <$> brand_text r)).
Proof.
  unfold brand_text, text_or_missing, add_text.
  destruct (cell "brand" r) as [s|z|f| | |y m d]; simpl; try done.
  - intros ->. reflexivity.
Qed.

Lemma zip_map_map {A B C} (f : A -> B) (g : A -> C) (l : list A) :
  zip (map f l) (map g l) = map (fun x => (f x, g x)) l.
Proof. induction l; simpl; congruence. Qed.

Lemma series_add_text_opt {A} (o : A -> option string) (l : list A) t :
  series_add_text (map (fun r => opt_text (o r)) l) t
  = Ok (map (fun r => opt_text ((fun s => s +:+ t) <$> o r)) l).
Proof.
  unfold series_add_text.
  apply (mapM_map (fun x => add_text x t) (fun r => opt_text (o r))).
  apply Forall_forall. intros r _. apply add_text_opt.
Qed.

Lemma series_add_opt {A} (o : A -> option string) (g : A -> string)
    (l : list A) :
  series_add (map (fun r => opt_text (o r)) l) (map g l)
  = Ok (map (fun r => opt_text ((fun s => s +:+ g r) <$> o r)) l).
Proof.
  unfold series_add. rewrite zip_map_map.
  apply (mapM_map (fun xt => add_text (fst xt) (snd xt))
           (fun r => (opt_text (o r), g r))).
  apply Forall_forall. intros r _. simpl. apply add_text_opt.
Qed.

Lemma append_assoc (a b c : string) : (a +:+ b) +:+ c = a +:+ (b +:+ c).
Proof.
  induction a as [|x a IH]; [reflexivity|].
  change (String x ((a +:+ b) +:+ c) = String x (a +:+ (b +:+ c))).
  by rewrite IH.
Qed.

(** A column with a text in it is a column of objects. *)
Lemma numeric_column_text (rs : list (gmap string value)) :
  Exists (fun r => ∃ b, cell "brand" r = VStr b) rs ->
  numeric_column (map (cell "brand") rs) = false.
Proof.
  intros H.
  assert (Hall : forallb is_number (map (cell "brand") rs) = false).
  { induction H as [r rs [b Hb]|r rs _ IH]; simpl.
    - by rewrite Hb.
    - rewrite IH. apply andb_false_r. }
  unfold numeric_column. by destruct (map (cell "brand") rs).
Qed.

Lemma product_id_series_rows astype_str df :
  matcher_input df ->
  numeric_column (map (cell "brand") (rows df)) = false ->
  product_id_series astype_str df
  = Ok (map (identity_key astype_str) (rows df)).
Proof.
  intros [Hcols Hbrand] Hobj.
  unfold key_columns in Hcols. simpl in Hcols.
  repeat match goal with
         | H : Forall _ (_ :: _) |- _ => apply Forall_cons in H; destruct H
         end.
  unfold product_id_series.
  rewrite (get_column_ok "brand") by done. rewrite bind_Ok.
  assert (Hs : column_add_text (map (cell "brand") (rows df)) "|"
          = Ok (map (fun r => opt_text ((fun s => s +:+ "|")
                                          <$> brand_text r)) (rows df))).
  { unfold column_add_text. rewrite Hobj.
    unfold series_add_text. apply mapM_map.
    eapply Forall_impl; [exact Hbrand|]. intros r Hr. by apply add_text_brand. }
  rewrite Hs, bind_Ok.
  rewrite (get_column_ok "screen_size_in") by done. rewrite bind_Ok.
  rewrite !map_map.
  rewrite (series_add_opt _ (fun r => astype_str (cell "screen_size_in" r))).
  rewrite bind_Ok.
  rewrite series_add_text_opt, bind_Ok.
  rewrite (get_column_ok "aspect_ratio") by done. rewrite bind_Ok, !map_map.
  rewrite (series_add_opt _ (fun r => astype_str (cell "aspect_ratio" r))).
  rewrite bind_Ok.
  rewrite series_add_text_opt, bind_Ok.
  rewrite (get_column_ok "refresh_rate_hz") by done. rewrite bind_Ok, !map_map.
  rewrite (series_add_opt _ (fun r => astype_str (cell "refresh_rate_hz" r))).
  rewrite bind_Ok.
  rewrite series_add_text_opt, bind_Ok.
  rewrite (get_column_ok "response_time_ms") by done. rewrite bind_Ok, !map_map.
  rewrite (series_add_opt _ (fun r => astype_str (cell "response_time_ms" r))).
  f_equal. apply map_ext_in. intros r Hr.
  unfold identity_key, brand_text.
  destruct (cell "brand" r); simpl; try reflexivity.
  by rewrite !append_assoc.
Qed.

Lemma zip_with_insert_map (c : string) (f : gmap string value -> value)
    (l : list (gmap string value)) :
  zip_with (fun r v => <[c := v]> r) l (map f l)
  = map (fun r => <[c := f r]> r) l.
Proof. induction l; simpl; congruence. Qed.

Lemma assign_product_id_rows astype_str df :
  matcher_input df ->
  numeric_column (map (cell "brand") (rows df)) = false ->
  assign_product_id astype_str df
  = Ok {| columns := if bool_decide ("product_id" ∈ columns df)
                     then columns df else columns df ++ ["product_id"];
          rows := map (keyed astype_str) (rows df) |}.
Proof.
  intros H Hobj. unfold assign_product_id.
  rewrite product_id_series_rows by done. rewrite bind_Ok.
  unfold set_column. by rewrite zip_with_insert_map.
Qed.

Lemma cell_insert c v (r : gmap string value) : cell c (<[c := v]> r) = v.
Proof. unfold cell. by rewrite lookup_insert_eq. Qed.

Lemma cell_insert_ne c c' v (r : gmap string value) :
  c ≠ c' -> cell c' (<[c := v]> r) = cell c' r.
Proof. intros. unfold cell. by rewrite lookup_insert_ne. Qed.

(** ** Groups of platforms *)

Ltac other_key IH :=
  match goal with
  | |- context [groupby_unique ?rest !! ?s] =>
      destruct (groupby_unique rest !! s) as [ps|];
      [destruct IH as [? IH]; split; [done|]; intros v;
       rewrite IH, elem_of_cons; naive_solver
      | intros v; rewrite elem_of_cons; specialize (IH v); naive_solver]
  end.

Lemma groupby_unique_lookup pairs s :
  match groupby_unique pairs !! s with
  | Some ps => ps ≠ [] ∧ ∀ v, v ∈ ps ↔ (VStr s, v) ∈ pairs
  | None => ∀ v, (VStr s, v) ∉ pairs
  end.
Proof.
  induction pairs as [|[k p] rest IH]; simpl.
  - rewrite lookup_empty. intros v Hv. by apply not_elem_of_nil in Hv.
  - destruct k as [s'|z|f| | |y m d]; try other_key IH.
    destruct (decide (s' = s)) as [->|Hne].
    + rewrite lookup_insert_eq. split; [done|].
      intros v. rewrite elem_of_cons, list_elem_of_filter, elem_of_cons.
      destruct (groupby_unique rest !! s) as [ps|]; simpl.
      * destruct IH as [_ IH]. rewrite IH.
        destruct (decide (v = p)); naive_solver.
      * rewrite elem_of_nil. specialize (IH v). naive_solver.
    + rewrite lookup_insert_ne by done. other_key IH.
Qed.

Lemma has_text_spec x t : has_text x t = true ↔ VStr t ∈ x.
Proof.
  unfold has_text. rewrite existsb_exists. split.
  - intros [v [Hin Hv]]. destruct v; try discriminate.
    apply String.eqb_eq in Hv. subst. by apply list_elem_of_In.
  - intros H. exists (VStr t). split; [by apply list_elem_of_In|].
    apply String.eqb_refl.
Qed.

Lemma on_both_platforms_spec x :
  on_both_platforms x = true ↔ VStr "ebay" ∈ x ∧ VStr "flipkart" ∈ x.
Proof.
  rewrite <- !has_text_spec. unfold on_both_platforms.
  cbn [filter list_filter].
  destruct (has_text x "ebay"), (has_text x "flipkart");
    repeat case_decide; simpl; try done; naive_solver.
Qed.

Lemma cross_platform_ids_spec groups s :
  s ∈ cross_platform_ids groups ↔
  ∃ ps, groups !! s = Some ps ∧ on_both_platforms ps = true.
Proof.
  unfold cross_platform_ids. rewrite list_elem_of_fmap. split.
  - intros [[k ps] [-> H]]. apply list_elem_of_filter in H as [H1 H2].
    apply elem_of_map_to_list in H2. eauto.
  - intros [ps [H1 H2]]. exists (s, ps). split; [done|].
    apply list_elem_of_filter. split; [done|]. by apply elem_of_map_to_list.
Qed.

(** ** The rows the Matcher returns *)

Lemma select_rows_map {A B} (g : A -> B) (h : A -> bool) (l : list A) :
  select_rows (map g l) (map h l) = map g (filter (fun x => h x = true) l).
Proof.
  induction l as [|x l IH]; [reflexivity|].
  cbn [map select_rows]. rewrite filter_cons. destruct (h x) eqn:E.
  - rewrite decide_True by done. simpl. by rewrite IH.
  - rewrite decide_False by done. done.
Qed.

Lemma same_key_text a s : same_key a (VStr s) = true ↔ a = VStr s.
Proof.
  destruct a; simpl; try (split; [discriminate | intros [=]]).
  rewrite String.eqb_eq. split; [by intros -> | by intros [= ->]].
Qed.

Lemma same_key_is_text a k : same_key a k = true -> ∃ s, k = VStr s.
Proof. destruct a, k; simpl; try discriminate. eauto. Qed.

Lemma platform_set_spec astype_str rs k p :
  p ∈ platform_set astype_str rs k ↔
  ∃ r, r ∈ rs ∧ same_key (identity_key astype_str r) k = true
       ∧ cell "platform" r = VStr p.
Proof.
  unfold platform_set. rewrite elem_of_list_to_set, list_elem_of_omap.
  split.
  - intros [r [Hr H]]. exists r. split; [done|].
    destruct (same_key (identity_key astype_str r) k); [|discriminate].
    destruct (cell "platform" r); try discriminate. injection H as ->. done.
  - intros [r [Hr [Hk Hp]]]. exists r. split; [done|]. by rewrite Hk, Hp.
Qed.

Lemma size_known_platforms : size known_platforms = 2%nat.
Proof. reflexivity. Qed.

Lemma both_known_platforms (S : gset string) :
  (2 <= size (S ∩ known_platforms))%nat ↔ "ebay" ∈ S ∧ "flipkart" ∈ S.
Proof.
  unfold known_platforms. split.
  - intros H.
    destruct (decide ("ebay" ∈ S)) as [He|He].
    + split; [done|].
      destruct (decide ("flipkart" ∈ S)) as [Hf|Hf]; [done|].
      assert (Hsub : S ∩ {["ebay"; "flipkart"]}
                     ⊆ ({["ebay"]} : gset string)) by set_solver.
      apply subseteq_size in Hsub. rewrite size_singleton in Hsub. lia.
    + assert (Hsub : S ∩ {["ebay"; "flipkart"]}
                     ⊆ ({["flipkart"]} : gset string)) by set_solver.
      apply subseteq_size in Hsub. rewrite size_singleton in Hsub. lia.
  - intros [He Hf].
    assert (Heq : S ∩ {["ebay"; "flipkart"]}
                  = ({["ebay"; "flipkart"]} : gset string)) by set_solver.
    rewrite Heq.
    apply (eq_ind_r (fun n => (2 <= n)%nat) (le_n 2) size_known_platforms).
Qed.

Lemma isin_cross_platform astype_str (rs : list (gmap string value)) r :
  isin (cross_platform_ids
          (groupby_unique
             (map (fun r0 => (identity_key astype_str r0,
                              cell "platform" r0)) rs)))
       (identity_key astype_str r) = true
  ↔ cross_platform astype_str rs r.
Proof.
  unfold cross_platform. rewrite both_known_platforms, !platform_set_spec.
  set (pairs := map _ rs).
  assert (Hpairs : ∀ s p, (VStr s, VStr p) ∈ pairs ↔
            ∃ r0, r0 ∈ rs
                  ∧ same_key (identity_key astype_str r0) (VStr s) = true
                  ∧ cell "platform" r0 = VStr p).
  { intros s p. unfold pairs. rewrite list_elem_of_fmap. split.
    - intros [r0 [[= H1 H2] Hr0]]. exists r0. rewrite same_key_text. done.
    - intros [r0 [Hr0 [H1 H2]]]. exists r0. apply same_key_text in H1.
      by rewrite H1, H2. }
  destruct (identity_key astype_str r) as [s|z|f| | |y m d] eqn:Hk;
    try (simpl; split; [discriminate|];
         intros [[r0 [_ [H _]]] _]; apply same_key_is_text in H as [? [=]]).
  simpl. rewrite bool_decide_eq_true, cross_platform_ids_spec.
  pose proof (groupby_unique_lookup pairs s) as Hg.
  rewrite <- !Hpairs.
  destruct (groupby_unique pairs !! s) as [ps|].
  - destruct Hg as [_ Hg]. rewrite <- !Hg, <- on_both_platforms_spec.
    split; [by intros [? [[= <-] ?]] | eauto].
  - split; [by intros [? [[=] _]] | intros [H _]; by apply Hg in H].
Qed.

Lemma groupby_select_ok c df :
  c ∈ columns df -> groupby_select c df = Ok (map (cell c) (rows df)).
Proof.
  intros H. unfold groupby_select. rewrite bool_decide_eq_true_2; done.
Qed.

Lemma filter_products_rows astype_str df :
  matcher_input df ->
  numeric_column (map (cell "brand") (rows df)) = false ->
  filter_products_by_platforms astype_str df
  = Ok {| columns := if bool_decide ("product_id" ∈ columns df)
                     then columns df else columns df ++ ["product_id"];
          rows := map (keyed astype_str)
                      (filter (cross_platform astype_str (rows df))
                              (rows df)) |}.
Proof.
  intros H Hobj. unfold filter_products_by_platforms.
  rewrite assign_product_id_rows by done. rewrite bind_Ok.
  set (df' := {| columns := _; rows := _ |}).
  assert (Hpid : "product_id" ∈ columns df').
  { simpl. case_bool_decide; [done|]. apply elem_of_app. right.
    by apply list_elem_of_singleton. }
  assert (Hplat : "platform" ∈ columns df').
  { destruct H as [Hc _]. rewrite Forall_forall in Hc.
    assert ("platform" ∈ columns df)
      by (apply Hc; unfold key_columns; set_solver).
    simpl. case_bool_decide; [done|]. apply elem_of_app. by left. }
  rewrite !(get_column_ok "product_id") by done. rewrite bind_Ok.
  rewrite (groupby_select_ok "platform") by done. rewrite !bind_Ok.
  unfold boolean_index. f_equal. f_equal. simpl.
  rewrite !map_map.
  assert (Hids : map (fun r => cell "product_id" (keyed astype_str r)) (rows df)
                 = map (identity_key astype_str) (rows df)).
  { apply map_ext. intros r. apply cell_insert. }
  assert (Hpl : map (fun r => cell "platform" (keyed astype_str r)) (rows df)
                = map (cell "platform") (rows df)).
  { apply map_ext. intros r. by apply cell_insert_ne. }
  rewrite Hids, Hpl, zip_map_map.
  rewrite (select_rows_map (keyed astype_str)).
  f_equal. apply list_filter_iff. intros r.
  unfold keyed at 1. rewrite cell_insert. apply isin_cross_platform.
Qed.

(** ** Groups of prices *)

Lemma group_lookup_add {K V : Type} `{EqDecision K} (k0 : K) (v : V)
    (groups : list (K * list V)) (k : K) :
  group_lookup (add_to_group k0 v groups) k
  = if decide (k0 = k) then Some (v :: default [] (group_lookup groups k))
    else group_lookup groups k.
Proof.
  unfold group_lookup.
  induction groups as [|[k' vs] groups IH]; simpl.
  - destruct (decide (k0 = k)) as [->|Hne].
    + by rewrite bool_decide_eq_true_2.
    + by rewrite bool_decide_eq_false_2.
  - destruct (decide (k0 = k')) as [->|Hne]; simpl.
    + destruct (decide (k' = k)) as [->|Hne'].
      * by rewrite !bool_decide_eq_true_2.
      * by rewrite !bool_decide_eq_false_2.
    + destruct (decide (k' = k)) as [->|Hne'].
      * rewrite bool_decide_eq_true_2 by done. simpl.
        by rewrite decide_False.
      * rewrite bool_decide_eq_false_2 by done. apply IH.
Qed.

Lemma group_lookup_group_by {K V : Type} `{EqDecision K}
    (pairs : list (K * V)) (k : K) :
  group_lookup (group_by pairs) k
  = match filter (fun kv => fst kv = k) pairs with
    | [] => None
    | l => Some (map snd l)
    end.
Proof.
  induction pairs as [|[k0 v] rest IH]; [reflexivity|].
  simpl. rewrite group_lookup_add, filter_cons. simpl.
  destruct (decide (k0 = k)) as [->|Hne].
  - rewrite IH. by destruct (filter _ rest).
  - exact IH.
Qed.

Lemma find_map_snd {K V W : Type} `{EqDecision K} (f : list V -> W)
    (groups : list (K * list V)) (k : K) :
  snd <$> find (fun g => bool_decide (fst g = k))
               (map (fun g => (fst g, f (snd g))) groups)
  = f <$> group_lookup groups k.
Proof.
  unfold group_lookup.
  induction groups as [|[k' vs] groups IH]; [reflexivity|].
  simpl. destruct (bool_decide (k' = k)); [reflexivity | exact IH].
Qed.

Lemma group_by_nonempty {K V : Type} `{EqDecision K} (pairs : list (K * V)) :
  Forall (fun g => snd g ≠ [] ∧ ∀ v, v ∈ snd g → (fst g, v) ∈ pairs)
         (group_by pairs).
Proof.
  induction pairs as [|[k0 v] rest IH]; [constructor|].
  simpl.
  assert (IH' : Forall (fun g => snd g ≠ [] ∧
             ∀ v', v' ∈ snd g → (fst g, v') ∈ (k0, v) :: rest)
           (group_by rest)).
  { eapply Forall_impl; [exact IH|]. intros g [H1 H2]. split; [done|].
    intros v' Hv'. apply elem_of_cons. right. by apply H2. }
  clear IH. induction IH' as [|[k' vs] groups [H1 H2] Htail IHg]; simpl.
  - constructor; [|constructor]. simpl. split; [done|]. intros v' Hv'.
    apply list_elem_of_singleton in Hv' as ->. apply elem_of_cons. by left.
  - destruct (decide (k0 = k')) as [->|Hne].
    + constructor; [|exact Htail]. simpl in *. split; [done|]. intros v' Hv'.
      apply elem_of_cons in Hv' as [->|Hv'];
        [apply elem_of_cons; by left | by apply H2].
    + constructor; [by split | exact IHg].
Qed.

(** ** Means *)

Lemma mapM_ok {A B} (h : A -> result B) (g : A -> B) (l : list A) :
  Forall (fun x => h x = Ok (g x)) l -> mapM h l = Ok (map g l).
Proof.
  intros H. rewrite <- (map_id l) at 1. by apply mapM_map.
Qed.

Lemma omap_id_Some {A B} (f : A -> B) (l : list A) :
  omap id (map (fun x => Some (f x)) l) = map f l.
Proof. induction l as [|x l IH]; [reflexivity|]. simpl. f_equal. exact IH. Qed.

Lemma foldr_fadd_finite (qs : list Q) :
  foldr fadd (FFinite 0) (map FFinite qs) = FFinite (Qsum qs).
Proof.
  induction qs as [|q qs IH]; [reflexivity|].
  simpl. rewrite IH. reflexivity.
Qed.

Lemma mean_finite (vs : list value) :
  vs ≠ [] ->
  Forall finite_number vs ->
  mean vs = Ok (FFinite (Qred (Qsum (map number_of vs)
                               / inject_Z (Z.of_nat (length vs))))).
Proof.
  intros Hne H. unfold mean.
  rewrite (mapM_ok price_number (fun v => Some (FFinite (number_of v)))).
  2:{ eapply Forall_impl; [exact H|]. intros v Hv.
      destruct v as [s|z|[q|b|]| | |y m d]; simpl in *; done. }
  rewrite bind_Ok, omap_id_Some.
  destruct vs as [|v vs]; [done|].
  cbn [map]. cbv iota.
  change (FFinite (number_of v) :: map (fun x => FFinite (number_of x)) vs)
    with (map (fun x => FFinite (number_of x)) (v :: vs)).
  rewrite <- (map_map number_of FFinite (v :: vs)).
  rewrite foldr_fadd_finite, !length_map. reflexivity.
Qed.

Lemma omap_price_numbers (vs : list value) :
  Forall (fun v => finite_number v \/ pd_notnull v = false) vs ->
  mapM price_number vs
  = Ok (map (fun v => if pd_notnull v then Some (FFinite (number_of v))
                      else None) vs).
Proof.
  intros H. apply mapM_ok. eapply Forall_impl; [exact H|].
  intros v [Hv|Hv]; destruct v as [s|z|[q|b|]| | |y m d]; simpl in *;
    done.
Qed.

Lemma omap_id_present (vs : list value) :
  omap id (map (fun v => if pd_notnull v then Some (FFinite (number_of v))
                         else None) vs)
  = map (fun v => FFinite (number_of v)) (present vs).
Proof.
  unfold present. induction vs as [|v vs IH]; [reflexivity|].
  rewrite filter_cons. cbn [map omap list_omap].
  destruct (decide (pd_notnull v = true)) as [E|E].
  - rewrite E. simpl. by rewrite IH.
  - apply not_true_is_false in E. rewrite E. simpl. exact IH.
Qed.

Lemma present_finite (vs : list value) :
  Forall (fun v => finite_number v \/ pd_notnull v = false) vs ->
  Forall finite_number (present vs).
Proof.
  intros H. apply Forall_forall. intros v Hv.
  apply list_elem_of_filter in Hv as [Hn Hv].
  rewrite Forall_forall in H. destruct (H v Hv) as [?|E]; [done|].
  rewrite E in Hn. discriminate.
Qed.

(** [mean] on prices that are finite or missing. *)
Lemma mean_present (vs : list value) :
  Forall (fun v => finite_number v \/ pd_notnull v = false) vs ->
  mean vs = Ok (mean_of_present vs).
Proof.
  intros H. pose proof (present_finite vs H) as Hfin.
  unfold mean, mean_of_present. rewrite omap_price_numbers by done.
  rewrite bind_Ok, omap_id_present.
  destruct (present vs) as [|v l] eqn:E; [reflexivity|].
  pose proof (mean_finite (v :: l)) as Hm. unfold mean in Hm.
  rewrite (mapM_ok price_number (fun x => Some (FFinite (number_of x))))
    in Hm.
  2:{ eapply Forall_impl; [exact Hfin|]. intros x Hx.
      destruct x as [s|z|[q|b|]| | |y m d]; simpl in *; done. }
  rewrite bind_Ok, omap_id_Some in Hm.
  specialize (Hm ltac:(done) Hfin). exact Hm.
Qed.

(** ** The daily aggregate, group by group *)

Lemma filter_keyed_prices (rs : list (gmap string value))
    (key : string * value * value) :
  filter (fun kv => fst kv = key)
    (omap (fun r => (fun k => (k, cell "price" r)) <$> group_key r) rs)
  = map (fun r => (key, cell "price" r))
        (filter (fun r => group_key r = Some key) rs).
Proof.
  induction rs as [|r rs IH]; [reflexivity|].
  rewrite (filter_cons _ r). cbn [omap list_omap].
  destruct (group_key r) as [k|] eqn:E; cbn [fmap option_fmap option_map].
  - rewrite filter_cons. cbn [fst].
    destruct (decide (k = key)) as [->|Hne].
    + rewrite decide_True by done. cbn [map]. f_equal. exact IH.
    + rewrite decide_False by congruence. exact IH.
  - rewrite decide_False by done. exact IH.
Qed.

Lemma group_key_spec r k p d :
  group_key r = Some (k, p, d) ↔
  cell "product_id" r = VStr k ∧ cell "platform" r = p
  ∧ cell "collection_date" r = d
  ∧ pd_notnull p = true ∧ pd_notnull d = true.
Proof.
  unfold group_key.
  destruct (cell "product_id" r) as [s|z|f| | |y m dd];
    try (split; [discriminate | by intros [[=] _]]).
  destruct (pd_notnull (cell "platform" r)) eqn:E1,
           (pd_notnull (cell "collection_date" r)) eqn:E2; simpl;
    (split; [intros [= <- <- <-]; done
            | intros [[= <-] [<- [<- [? ?]]]]; congruence]).
Qed.

Lemma group_rows_sharing df k p d :
  pd_notnull p = true -> pd_notnull d = true ->
  filter (fun r => group_key r = Some (k, p, d)) (rows df)
  = rows_sharing df k p d.
Proof.
  intros Hp Hd. unfold rows_sharing. apply list_filter_iff. intros r.
  rewrite group_key_spec. naive_solver.
Qed.

Lemma group_rows_missing df k p d :
  pd_notnull p && pd_notnull d = false ->
  filter (fun r => group_key r = Some (k, p, d)) (rows df) = [].
Proof.
  intros H. induction (rows df) as [|r rs IH]; [reflexivity|].
  rewrite filter_cons, decide_False; [exact IH|].
  rewrite group_key_spec. intros [_ [_ [_ [Hp Hd]]]].
  rewrite Hp, Hd in H. discriminate.
Qed.

Lemma keyed_prices_numbers df :
  Forall (fun r => finite_number (cell "price" r) ∨ cell "price" r = VNaN)
         (rows df) ->
  Forall (fun kv => finite_number (snd kv) ∨ pd_notnull (snd kv) = false)
         (keyed_prices df).
Proof.
  unfold keyed_prices. induction 1 as [|r rs Hr _ IH]; [constructor|].
  simpl. destruct (group_key r); simpl; [|exact IH].
  constructor; [|exact IH]. simpl.
  destruct Hr as [Hf|Hn]; [by left | right; by rewrite Hn].
Qed.

Lemma daily_aggregate_groups df :
  analyzer_input df ->
  daily_aggregate df
  = Ok (map (fun g => (fst g, mean_of_present (snd g)))
            (group_by (keyed_prices df))).
Proof.
  intros [Hcols Hprice].
  repeat match goal with
         | H : Forall _ (_ :: _) |- _ => apply Forall_cons in H; destruct H
         end.
  unfold daily_aggregate.
  rewrite !get_column_ok by done.
  rewrite (groupby_select_ok "price") by done. rewrite !bind_Ok.
  apply mapM_ok.
  pose proof (group_by_nonempty (keyed_prices df)) as Hg.
  pose proof (keyed_prices_numbers df Hprice) as Hfin.
  eapply Forall_impl; [exact Hg|]. intros [key vs] [Hne Hin]. simpl in *.
  rewrite mean_present; [reflexivity|].
  apply Forall_forall. intros v Hv. apply Hin in Hv.
  rewrite Forall_forall in Hfin. exact (Hfin _ Hv).
Qed.

Lemma aggregate_at_groups df k p d :
  aggregate_at (map (fun g => (fst g, mean_of_present (snd g)))
                    (group_by (keyed_prices df))) k p d
  = match filter (fun r => group_key r = Some (k, p, d)) (rows df) with
    | [] => None
    | rs => Some (mean_of_present (map (cell "price") rs))
    end.
Proof.
  unfold aggregate_at.
  rewrite (find_map_snd mean_of_present).
  rewrite group_lookup_group_by. unfold keyed_prices.
  rewrite filter_keyed_prices.
  destruct (filter _ (rows df)) as [|r rs]; [reflexivity|].
  cbn [map fmap option_fmap option_map]. rewrite map_map. reflexivity.
Qed.

Lemma average_prices rs :
  (average (map (cell "price") rs) == mean_price rs)%Q.
Proof.
  unfold average, mean_price. rewrite Qred_correct, map_map, length_map.
  reflexivity.
Qed.

Lemma present_prices (rs : list (gmap string value)) :
  present (map (cell "price") rs) = map (cell "price") (priced rs).
Proof.
  unfold present, priced. induction rs as [|r rs IH]; [reflexivity|].
  cbn [map]. rewrite !filter_cons.
  destruct (decide (pd_notnull (cell "price" r) = true)); cbn [map];
    by rewrite IH.
Qed.

(** ** The Loader only logs *)

Lemma extend_extend w l1 l2 : extend (extend w l1) l2 = extend w (l1 ++ l2).
Proof. unfold extend. simpl. by rewrite app_assoc. Qed.

Lemma extend_nil w : extend w [] = w.
Proof. destruct w. unfold extend. simpl. by rewrite app_nil_r. Qed.

Lemma emit_extend r w : emit r w = (extend w [r], Ok tt).
Proof. reflexivity. Qed.

Ltac run_prog :=
  unfold mbind, mret, prog_mbind, prog_mret, prog_bind, prog_ret, lift, raise,
    try_except; cbn.

(** A turn for one file only adds to the log, and what it adds and
    returns does not depend on the world it starts in. *)
Lemma load_file_frame to_date ns platform dfs file :
  ∃ l r, Forall plain l ∧
    ∀ w, load_file to_date ns platform dfs file w = (extend w l, r).
Proof.
  unfold load_file, try_except, lift.
  destruct (prepare_file to_date ns platform file) as [[missing|df]|e] eqn:E.
  - exists [warning (MissingColumns (file_path file) missing)], (Ok dfs).
    split; [by repeat constructor|]. intros w. reflexivity.
  - exists [], (Ok (dfs ++ [df])). split; [constructor|].
    intros w. cbn. by rewrite extend_nil.
  - destruct (is_Exception e) eqn:Ee.
    + exists [error (ErrorLoading (file_path file) e)], (Ok dfs).
      split; [by repeat constructor|]. intros w. run_prog.
      rewrite Ee. reflexivity.
    + exists [], (Raise e). split; [constructor|]. intros w. run_prog.
      rewrite Ee. by rewrite extend_nil.
Qed.

Lemma for_each_frame {A S} (body : S -> A -> prog S) (xs : list A) :
  (∀ acc x, ∃ l r, Forall plain l
                   ∧ ∀ w, body acc x w = (extend w l, r)) ->
  ∀ acc, ∃ l r, Forall plain l
                ∧ ∀ w, for_each xs body acc w = (extend w l, r).
Proof.
  intros Hbody. induction xs as [|x xs IH]; intros acc.
  - exists [], (Ok acc). split; [constructor|]. intros w.
    cbn. by rewrite extend_nil.
  - destruct (Hbody acc x) as [l1 [r1 [Hp1 H1]]].
    destruct r1 as [acc'|e].
    + destruct (IH acc') as [l2 [r2 [Hp2 H2]]].
      exists (l1 ++ l2), r2. split; [by apply Forall_app|]. intros w.
      cbn. unfold mbind, prog_mbind, prog_bind. rewrite H1, H2.
      by rewrite extend_extend.
    + exists l1, (Raise e). split; [done|]. intros w.
      cbn. unfold mbind, prog_mbind, prog_bind. by rewrite H1.
Qed.

Lemma load_platform_frame to_date ns disk dfs platform :
  ∃ l r, Forall plain l ∧
    ∀ w, load_platform to_date ns disk dfs platform w = (extend w l, r).
Proof.
  unfold load_platform. destruct (disk platform) as [| |files].
  - exists [warning (MissingDataDirectory platform)], (Ok dfs).
    split; [by repeat constructor|]. intros w. reflexivity.
  - exists [], (Raise (PermissionError platform)). split; [constructor|].
    intros w. unfold raise. by rewrite extend_nil.
  - apply for_each_frame. intros acc x. apply load_file_frame.
Qed.

Lemma load_cleaned_data_frame to_date pd_concat ns disk :
  ∃ l r, Forall plain l ∧
    ∀ w, load_cleaned_data to_date pd_concat ns disk w = (extend w l, r).
Proof.
  unfold load_cleaned_data.
  destruct (for_each_frame (load_platform to_date ns disk) platforms
              (fun acc x => load_platform_frame to_date ns disk acc x) [])
    as [l [r [Hp H]]].
  destruct r as [dfs|e].
  - exists l, (match dfs with
               | [] => Ok empty_frame
               | _ => pd_concat dfs
               end).
    split; [done|]. intros w.
    unfold mbind, prog_mbind, prog_bind. rewrite H. by destruct dfs.
  - exists l, (Raise e). split; [done|]. intros w.
    unfold mbind, prog_mbind, prog_bind. by rewrite H.
Qed.


Lemma normalize_aspect_ratio_unbound :
  load_name notebook_globals "normalize_aspect_ratio"
  = Raise (NameError "normalize_aspect_ratio").
Proof. reflexivity. Qed.



Lemma prepare_file_unreadable to_date ns platform file :
  read_csv file = None ->
  prepare_file to_date ns platform file = Raise ReadError.
Proof. intros H. unfold prepare_file. by rewrite H. Qed.

Lemma prepare_file_missing to_date ns platform file t :
  read_csv file = Some t ->
  missing_cols (frame_of_csv t) ≠ [] ->
  prepare_file to_date ns platform file
  = Ok (SkippedMissing (missing_cols (frame_of_csv t))).
Proof.
  intros H Hm. unfold prepare_file. rewrite H, bind_Ok.
  by destruct (missing_cols (frame_of_csv t)).
Qed.









(** ** Rounding *)

Lemma round_half_even_nearest (q : Q) :
  (Qabs (inject_Z (Num.round_half_even q) - q) <= 1 # 2)%Q.
Proof.
  unfold Num.round_half_even.
  pose proof (Qfloor_le q) as Hle.
  pose proof (Qlt_floor q) as Hlt.
  rewrite inject_Z_plus in Hlt. change (inject_Z 1) with 1%Q in Hlt.
  set (f := Qfloor q) in *.
  assert (Hnext : (inject_Z (f + 1) == inject_Z f + 1)%Q)
    by (rewrite inject_Z_plus; reflexivity).
  apply Qabs_Qle_condition.
  destruct (Qcompare_spec (q - inject_Z f) (1 # 2)) as [He|Hl|Hg].
  - destruct (Z.even f); [|rewrite Hnext]; split; lra.
  - split; lra.
  - rewrite Hnext. split; lra.
Qed.

Lemma round_half_even_integer (z : Z) :
  Num.round_half_even (inject_Z z) = z.
Proof.
  unfold Num.round_half_even. rewrite Qfloor_Z.
  assert (H : (inject_Z z - inject_Z z ?= 1 # 2)%Q = Lt).
  { apply (proj1 (Qlt_alt _ _)). lra. }
  by rewrite H.
Qed.

Lemma nearest_double_exact (z : Z) :
  Z.abs z <= 2 ^ 53 -> Num.nearest_double z = z.
Proof.
  intros H. unfold Num.nearest_double.
  destruct (Z.ltb_spec (Z.abs z) (2 ^ 53)) as [|Hge]; [reflexivity|].
  assert (Ha : Z.abs z = 2 ^ 53) by lia.
  cbv zeta. rewrite Ha.
  change (Z.log2 (2 ^ 53) - 52) with 1.
  change (2 ^ 53 mod 2 ^ 1) with 0.
  change (2 ^ 53 / 2 ^ 1) with (2 ^ 52).
  change (2 ^ (1 - 1)) with 1.
  change ((1 <? 0) || (0 =? 1) && Z.odd (2 ^ 52)) with false.
  cbv iota. lia.
Qed.

Lemma py_float_exact_int (z : Z) :
  Z.abs z <= 2 ^ 53 -> Num.py_float (VInt z) = Ok (FFinite (inject_Z z)).
Proof.
  intros H. unfold Num.py_float.
  assert (Hlt : 2 ^ 53 < Num.overflow_threshold) by reflexivity.
  destruct (Z.leb_spec Num.overflow_threshold (Z.abs z)); [lia|].
  by rewrite nearest_double_exact.
Qed.

Lemma mapM_raises {A B} (f : A -> result B) (l : list A) (x : A) (e : exn) :
  x ∈ l -> f x = Raise e -> ∃ e', mapM f l = Raise e'.
Proof.
  intros Hin Hx. induction l as [|y l IH]; [by apply not_elem_of_nil in Hin|].
  simpl. destruct (f y) as [b|e1] eqn:Ey; [|by exists e1].
  apply elem_of_cons in Hin as [->|Hin].
  - rewrite Hx in Ey. discriminate.
  - destruct (IH Hin) as [e' He']. exists e'. by rewrite bind_Ok, He'.
Qed.

(** ** The Matcher, row by row *)

Lemma keyed_other astype_str (r : gmap string value) c :
  c ≠ "product_id" -> keyed astype_str r !! c = r !! c.
Proof. intros H. unfold keyed. by rewrite lookup_insert_ne. Qed.

Lemma keyed_product_id astype_str (r : gmap string value) :
  keyed astype_str r !! "product_id" = Some (identity_key astype_str r).
Proof. unfold keyed. by rewrite lookup_insert_eq. Qed.





Ltac has_columns :=
  repeat (apply Forall_cons_2;
          [apply (bool_decide_unpack _); vm_compute; exact I|]);
  apply Forall_nil_2.




(** On the sample of the specification the two Dell 24 listings are
    returned and the Dell 27 listing, on ebay only, is not. *)
Example matcher_on_sample_table :
  ∃ out, filter_products_by_platforms Repr.py_str sample_table = Ok out
    ∧ map (fun r => (cell "product_id" r, cell "platform" r)) (rows out)
      = [(VStr "Dell|24|16:9|144|1", VStr "ebay");
         (VStr "Dell|24|16:9|144|1", VStr "flipkart")].
Proof. eexists. split; vm_compute; reflexivity. Qed.

(** Listings without a brand have no identifier, so they are in no group
    of platforms: the two brandless listings, one per platform, are not
    returned. *)
Example brandless_rows_are_not_matched :
  ∃ out, filter_products_by_platforms Repr.py_str null_brand_table = Ok out
    ∧ rows out = [].
Proof. eexists. split; vm_compute; reflexivity. Qed.

(** C6, counterexample. In a table with one branded listing and two
    listings whose brand is missing, the two get the missing number as
    identifier, not a text. *)
Lemma null_brand_has_no_key :
  ∃ df', assign_product_id Repr.py_str null_brand_table = Ok df'
    ∧ map (cell "product_id") (rows df')
      = [VStr "Dell|24|16:9|144|1"; VNaN; VNaN].
Proof. eexists. split; [vm_compute; reflexivity|]. vm_compute. reflexivity. Qed.

(** C6, as amended. On a table with the specification columns whose brands
    are text or missing, one at least being text, the assignment returns,
    and the identifier of each row is: the five fields joined by ["|"]
    when the brand is text, whatever the four other cells hold, missing
    ones included; the missing number when the brand is missing. *)
Theorem product_id_of_rows (astype_str : value -> string) (df : DataFrame) :
  matcher_input df -> some_text_brand df ->
  ∃ df', assign_product_id astype_str df = Ok df'
    ∧ map (cell "product_id") (rows df')
      = map (identity_key astype_str) (rows df)
    ∧ (∀ r b, cell "brand" r = VStr b ->
         identity_key astype_str r
         = VStr (b +:+ "|" +:+ astype_str (cell "screen_size_in" r)
                   +:+ "|" +:+ astype_str (cell "aspect_ratio" r)
                   +:+ "|" +:+ astype_str (cell "refresh_rate_hz" r)
                   +:+ "|" +:+ astype_str (cell "response_time_ms" r)))
    ∧ (∀ r, pd_notnull (cell "brand" r) = false ->
         identity_key astype_str r = VNaN).
Proof.
  intros Hin Htext. eexists.
  split; [apply assign_product_id_rows; [done | by apply numeric_column_text]|].
  simpl. split; [|split].
  - rewrite map_map. apply map_ext. intros r. apply cell_insert.
  - intros r b Hb. unfold identity_key. by rewrite Hb.
  - intros r Hb. unfold identity_key.
    destruct (cell "brand" r) as [s|z|f| | |y m d]; try done.
Qed.

Lemma product_id_of_rows_witness :
  ∃ df', assign_product_id Repr.py_str null_brand_table = Ok df'
    ∧ map (cell "product_id") (rows df')
      = map (identity_key Repr.py_str) (rows null_brand_table)
    ∧ (∀ r b, cell "brand" r = VStr b ->
         identity_key Repr.py_str r
         = VStr (b +:+ "|" +:+ Repr.py_str (cell "screen_size_in" r)
                   +:+ "|" +:+ Repr.py_str (cell "aspect_ratio" r)
                   +:+ "|" +:+ Repr.py_str (cell "refresh_rate_hz" r)
                   +:+ "|" +:+ Repr.py_str (cell "response_time_ms" r)))
    ∧ (∀ r, pd_notnull (cell "brand" r) = false ->
         identity_key Repr.py_str r = VNaN).
Proof.
  apply (product_id_of_rows Repr.py_str null_brand_table).
  - split; [unfold key_columns; simpl; has_columns|].
    repeat (apply Forall_cons_2; [vm_compute; done|]). apply Forall_nil_2.
  - apply Exists_cons_hd. exists "Dell". vm_compute. reflexivity.
Defined.

(** C7, counterexample. On the sample table the output has the column
    [product_id], which the input does not have, and no output row is a
    row of the input. *)
Lemma matcher_adds_product_id_column :
  ∃ out, filter_products_by_platforms Repr.py_str sample_table = Ok out
    ∧ "product_id" ∈ columns out
    ∧ ("product_id" ∉ columns sample_table)
    ∧ rows out ≠ []
    ∧ Forall (fun r' => r' ∉ rows sample_table) (rows out).
Proof.
  eexists. split; [vm_compute; reflexivity|].
  split; [apply (bool_decide_unpack _); vm_compute; exact I|].
  split; [apply (bool_decide_unpack _); vm_compute; exact I|].
  split; [discriminate|].
  repeat (apply Forall_cons_2;
          [apply (bool_decide_unpack _); vm_compute; exact I|]).
  apply Forall_nil_2.
Qed.

(** C7, as amended. On a table with the specification and platform
    columns whose brands are text or missing, one at least being text, the
    output holds, in the order of the input, the input rows whose
    identifier is on both platforms, each with its identifier added in the
    column [product_id]; every other cell of a row is as in the input, and
    the columns are those of the input followed by [product_id] (when the
    input has no such column). *)
Theorem matcher_output_rows (astype_str : value -> string) (df : DataFrame) :
  matcher_input df -> some_text_brand df ->
  ∃ out, filter_products_by_platforms astype_str df = Ok out
    ∧ rows out
      = map (keyed astype_str)
            (filter (cross_platform astype_str (rows df)) (rows df))
    ∧ columns out
      = (if bool_decide ("product_id" ∈ columns df) then columns df
         else columns df ++ ["product_id"])
    ∧ (∀ r c, c ≠ "product_id" -> keyed astype_str r !! c = r !! c)
    ∧ (∀ r, keyed astype_str r !! "product_id"
            = Some (identity_key astype_str r)).
Proof.
  intros Hin Htext. eexists.
  split; [apply filter_products_rows; [done | by apply numeric_column_text]|].
  simpl. split; [reflexivity|]. split; [reflexivity|].
  split; [apply keyed_other | apply keyed_product_id].
Qed.

Lemma matcher_output_rows_witness :
  ∃ out, filter_products_by_platforms Repr.py_str sample_table = Ok out
    ∧ rows out
      = map (keyed Repr.py_str)
            (filter (cross_platform Repr.py_str (rows sample_table))
                    (rows sample_table))
    ∧ columns out
      = (if bool_decide ("product_id" ∈ columns sample_table)
         then columns sample_table
         else columns sample_table ++ ["product_id"])
    ∧ (∀ r c, c ≠ "product_id" -> keyed Repr.py_str r !! c = r !! c)
    ∧ (∀ r, keyed Repr.py_str r !! "product_id"
            = Some (identity_key Repr.py_str r)).
Proof.
  apply (matcher_output_rows Repr.py_str sample_table).
  - split; [unfold key_columns; simpl; has_columns|].
    repeat (apply Forall_cons_2; [vm_compute; exact I|]). apply Forall_nil_2.
  - apply Exists_cons_hd. exists "Dell". vm_compute. reflexivity.
Defined.

(** ** The conversion of the screen size *)

Lemma mapM_length {A B} (f : A -> result B) (l : list A) (l' : list B) :
  mapM f l = Ok l' -> length l' = length l.
Proof.
  revert l'. induction l as [|x l IH]; intros l'; simpl.
  - by intros [= <-].
  - destruct (f x) as [y|e]; [|discriminate]. rewrite bind_Ok.
    destruct (mapM f l) as [ys|e]; [|discriminate]. rewrite bind_Ok.
    intros [= <-]. simpl. by rewrite (IH ys).
Qed.

Lemma set_column_cells c c' vs df :
  c ≠ c' -> length vs = length (rows df) ->
  map (cell c') (rows (set_column c vs df)) = map (cell c') (rows df).
Proof.
  intros Hne. unfold set_column. simpl. generalize (rows df). clear df.
  intros rs. revert vs. induction rs as [|r rs IH]; intros [|v vs] Hlen;
    try discriminate; [reflexivity|].
  simpl. rewrite cell_insert_ne by done. f_equal. apply IH.
  by injection Hlen.
Qed.

Lemma set_column_length c vs df :
  length vs = length (rows df) ->
  length (rows (set_column c vs df)) = length (rows df).
Proof.
  intros H. unfold set_column. simpl. rewrite length_zip_with. lia.
Qed.

Lemma infer_column_length xs : length (infer_column xs) = length xs.
Proof.
  unfold infer_column. destruct (_ && _); [apply length_map | reflexivity].
Qed.

Lemma apply_cells_length g series series' :
  apply_cells g series = Ok series' -> length series' = length series.
Proof.
  unfold apply_cells. destruct (mapM g series) as [results|e] eqn:E;
    [|discriminate].
  rewrite bind_Ok. intros [= <-]. rewrite infer_column_length.
  by apply (mapM_length g).
Qed.

Lemma series_apply_length f series series' :
  series_apply f series = Ok series' -> length series' = length series.
Proof. destruct f; simpl; try discriminate. apply apply_cells_length. Qed.

Lemma get_column_length c df series :
  get_column c df = Ok series -> series = map (cell c) (rows df).
Proof.
  unfold get_column. case_bool_decide; [by intros [= <-] | discriminate].
Qed.

Lemma prepare_file_bad_size to_date ns platform file t rec :
  read_csv file = Some t ->
  rec ∈ rows (frame_of_csv t) ->
  non_numeric_text (cell "screen_size_in" rec) ->
  ∀ df, prepare_file to_date ns platform file ≠ Ok (Prepared df).
Proof.
  intros Hr Hrec Hbad df. unfold prepare_file. rewrite Hr, bind_Ok.
  destruct (missing_cols (frame_of_csv t)); [|discriminate].
  set (df0 := frame_of_csv t) in *.
  set (df1 := set_column "platform" _ df0).
  assert (L1 : length (rows df1) = length (rows df0)).
  { apply set_column_length. by rewrite length_replicate. }
  assert (C1 : map (cell "screen_size_in") (rows df1)
               = map (cell "screen_size_in") (rows df0)).
  { apply set_column_cells; [done|]. by rewrite length_replicate. }
  destruct (get_column "brand" df1) as [brand|e] eqn:Eb; [|discriminate].
  apply get_column_length in Eb. rewrite bind_Ok.
  destruct (load_name ns "normalize_brand") as [f|e]; [|discriminate].
  rewrite bind_Ok.
  destruct (series_apply f brand) as [brand'|e] eqn:Eb'; [|discriminate].
  apply series_apply_length in Eb'. rewrite bind_Ok.
  set (df2 := set_column "brand" brand' df1).
  assert (Lb : length brand' = length (rows df1))
    by (by rewrite Eb', Eb, length_map).
  assert (L2 : length (rows df2) = length (rows df1))
    by (by apply set_column_length).
  assert (C2 : map (cell "screen_size_in") (rows df2)
               = map (cell "screen_size_in") (rows df0)).
  { rewrite <- C1. by apply set_column_cells. }
  destruct (get_column "aspect_ratio" df2) as [ratio|e] eqn:Er; [|discriminate].
  apply get_column_length in Er. rewrite bind_Ok.
  destruct (load_name ns "normalize_aspect_ratio") as [g|e]; [|discriminate].
  rewrite bind_Ok.
  destruct (series_apply g ratio) as [ratio'|e] eqn:Er'; [|discriminate].
  apply series_apply_length in Er'. rewrite bind_Ok.
  set (df3 := set_column "aspect_ratio" ratio' df2).
  assert (Lr : length ratio' = length (rows df2))
    by (by rewrite Er', Er, length_map).
  assert (C3 : map (cell "screen_size_in") (rows df3)
               = map (cell "screen_size_in") (rows df0)).
  { rewrite <- C2. by apply set_column_cells. }
  destruct (get_column "screen_size_in" df3) as [size|e] eqn:Es;
    [|discriminate].
  apply get_column_length in Es. rewrite bind_Ok.
  assert (Hin : cell "screen_size_in" rec ∈ size).
  { rewrite Es, C3. apply list_elem_of_fmap. eauto. }
  assert (Hraise : screen_size_lambda (cell "screen_size_in" rec)
                   = Raise ValueError).
  { destruct (cell "screen_size_in" rec) as [s|z|ff| | |y m d];
      simpl in Hbad; try done.
    unfold screen_size_lambda. simpl. by rewrite Hbad. }
  destruct (mapM_raises screen_size_lambda size _ _ Hin Hraise) as [e' He'].
  unfold apply_cells. rewrite He'. discriminate.
Qed.

(** C5, counterexample. A text that is no number makes the conversion
    raise [ValueError]; it does not become a null marker. *)
Lemma non_numeric_size_raises :
  screen_size_lambda (VStr "abc") = Raise ValueError
  ∧ screen_size_lambda (VStr "abc") ≠ Ok VNone.
Proof. split; [reflexivity | discriminate]. Qed.

(** C5, as amended. The conversion returns without raising on a missing
    value, which becomes [None], and on a value that holds a finite number,
    which becomes an integer at distance at most one half from it.  On a
    text [float] does not accept it raises [ValueError]; so does the
    [apply] over a column that contains such a text, and a file with such
    a cell in [screen_size_in] is never added to the frames collected. *)
Theorem screen_size_conversion (x : value) :
  (pd_notnull x = false -> screen_size_lambda x = Ok VNone)
  ∧ (∀ q, holds_number x q ->
       ∃ n, screen_size_lambda x = Ok (VInt n)
            ∧ (Qabs (inject_Z n - q) <= 1 # 2)%Q)
  ∧ (non_numeric_text x ->
       screen_size_lambda x = Raise ValueError
       ∧ (∀ series, x ∈ series ->
            ∃ e, mapM screen_size_lambda series = Raise e)
       ∧ (∀ to_date ns platform file t rec dfs w dfs',
            read_csv file = Some t ->
            rec ∈ rows (frame_of_csv t) ->
            cell "screen_size_in" rec = x ->
            snd (load_file to_date ns platform dfs file w) = Ok dfs' ->
            dfs' = dfs)).
Proof.
  split; [|split].
  - intros H. unfold screen_size_lambda. by rewrite H.
  - intros q H. exists (Num.round_half_even q).
    split; [|apply round_half_even_nearest].
    unfold screen_size_lambda.
    destruct x as [s|z|[q'|b|]| | |y m d]; simpl in H; try done.
    + simpl. by rewrite H.
    + destruct H as [Hz ->]. cbn [pd_notnull].
      rewrite py_float_exact_int by done. reflexivity.
    + by subst.
  - intros H.
    assert (Hx : screen_size_lambda x = Raise ValueError).
    { destruct x as [s|z|[q'|b|]| | |y m d]; simpl in H; try done.
      unfold screen_size_lambda. simpl. by rewrite H. }
    split; [done|]. split.
    + intros series Hin.
      by apply (mapM_raises screen_size_lambda series x ValueError).
    + intros to_date ns platform file t rec dfs w dfs' Hr Hrec Hcell.
      subst x.
      pose proof (prepare_file_bad_size to_date ns platform file t rec
                    Hr Hrec H) as Hnot.
      unfold load_file, try_except, lift.
      destruct (prepare_file to_date ns platform file) as [[missing|df]|e].
      * by intros [= <-].
      * by destruct (Hnot df).
      * run_prog. destruct (is_Exception e); simpl; [by intros [= <-] | done].
Qed.

Lemma screen_size_conversion_witness :
  screen_size_lambda VNaN = Ok VNone
  ∧ (∃ n, screen_size_lambda (VStr "23.8") = Ok (VInt n)
          ∧ (Qabs (inject_Z n - (238 # 10)) <= 1 # 2)%Q)
  ∧ screen_size_lambda (VStr "abc") = Raise ValueError
  ∧ match snd (load_file keep_dates with_normalizers "ebay" []
                 odd_size_file initial_world) with
    | Ok dfs' => dfs' = []
    | Raise _ => True
    end.
Proof.
  split; [|split; [|split]].
  - apply (proj1 (screen_size_conversion VNaN)). reflexivity.
  - apply (proj1 (proj2 (screen_size_conversion (VStr "23.8")))).
    vm_compute. reflexivity.
  - apply (proj2 (proj2 (screen_size_conversion (VStr "abc")))).
    vm_compute. reflexivity.
  - destruct (snd (load_file keep_dates with_normalizers "ebay" []
                     odd_size_file initial_world)) as [dfs'|e] eqn:E;
      [|exact I].
    refine (proj2 (proj2 (proj2 (proj2 (screen_size_conversion (VStr "abc")))
              eq_refl)) keep_dates with_normalizers "ebay" odd_size_file
              odd_size_table (hd ∅ (rows (frame_of_csv odd_size_table)))
              [] initial_world dfs' eq_refl _ _ E).
    + apply (bool_decide_unpack _). vm_compute. exact I.
    + vm_compute. reflexivity.
Defined.

(** ** The daily aggregate *)

(** C8, counterexample. Of two ebay rows of one product and day, one
    priced 200 and one whose price is missing, the aggregate is 200, the
    price that is there: it is not a mean over the two rows that share the
    triple. *)
Lemma missing_price_is_left_out :
  daily_aggregate missing_price_table
  = Ok [(("Dell|24|16:9|144|1", VStr "ebay", VDate 2024 1 1), FFinite 200)]
  ∧ length (rows_sharing missing_price_table "Dell|24|16:9|144|1"
              (VStr "ebay") (VDate 2024 1 1)) = 2%nat
  ∧ length (priced (rows_sharing missing_price_table "Dell|24|16:9|144|1"
                      (VStr "ebay") (VDate 2024 1 1))) = 1%nat.
Proof. split; [|split]; vm_compute; reflexivity. Qed.

(** C8, as amended. On a matched subset whose prices are finite numbers or
    missing the aggregation returns; the entry of a triple of identifier,
    platform and date shared by some rows is the arithmetic mean of the
    prices that are there among these rows, the rows without a price being
    left out, and the missing number when none of them has a price; a
    triple whose date is missing has no entry, and neither has a triple
    that no row shares.  Two ebay rows of one product and day priced 200
    and 220 give 210, the row without date next to them being left out. *)
Theorem daily_aggregate_is_mean (df : DataFrame) :
  analyzer_input df ->
  ∃ grouped, daily_aggregate df = Ok grouped
    ∧ (∀ k p d, pd_notnull p = true -> pd_notnull d = true ->
         rows_sharing df k p d ≠ [] ->
         (priced (rows_sharing df k p d) ≠ [] ->
          ∃ m, aggregate_at grouped k p d = Some (FFinite m)
               ∧ (m == mean_price (priced (rows_sharing df k p d)))%Q)
         ∧ (priced (rows_sharing df k p d) = [] ->
            aggregate_at grouped k p d = Some FNaN))
    ∧ (∀ k p d, pd_notnull d = false -> aggregate_at grouped k p d = None)
    ∧ (∀ k p d, rows_sharing df k p d = [] ->
         aggregate_at grouped k p d = None)
    ∧ daily_aggregate two_ebay_prices
      = Ok [(("Dell|24|16:9|144|1", VStr "ebay", VDate 2024 1 1),
             FFinite 210)].
Proof.
  intros Hin. eexists. split; [by apply daily_aggregate_groups|].
  split; [|split; [|split]].
  - intros k p d Hp Hd Hne. rewrite aggregate_at_groups.
    rewrite group_rows_sharing by done.
    destruct (rows_sharing df k p d) as [|r rs] eqn:E; [done|].
    unfold mean_of_present. rewrite present_prices.
    destruct (priced (r :: rs)) as [|r1 rs1] eqn:Ep.
    + split; [done | reflexivity].
    + split; [|done]. intros _.
      exists (average (map (cell "price") (r1 :: rs1))).
      split; [reflexivity|]. apply average_prices.
  - intros k p d Hd. rewrite aggregate_at_groups.
    rewrite group_rows_missing; [done|]. rewrite Hd. apply andb_false_r.
  - intros k p d He. rewrite aggregate_at_groups.
    destruct (pd_notnull p && pd_notnull d) eqn:Hpd.
    + apply andb_true_iff in Hpd as [Hp Hd].
      rewrite group_rows_sharing by done. by rewrite He.
    + by rewrite group_rows_missing.
  - vm_compute. reflexivity.
Qed.

Lemma daily_aggregate_is_mean_witness :
  ∃ grouped, daily_aggregate missing_price_table = Ok grouped
    ∧ (∀ k p d, pd_notnull p = true -> pd_notnull d = true ->
         rows_sharing missing_price_table k p d ≠ [] ->
         (priced (rows_sharing missing_price_table k p d) ≠ [] ->
          ∃ m, aggregate_at grouped k p d = Some (FFinite m)
               ∧ (m == mean_price
                         (priced (rows_sharing missing_price_table k p d)))%Q)
         ∧ (priced (rows_sharing missing_price_table k p d) = [] ->
            aggregate_at grouped k p d = Some FNaN))
    ∧ (∀ k p d, pd_notnull d = false -> aggregate_at grouped k p d = None)
    ∧ (∀ k p d, rows_sharing missing_price_table k p d = [] ->
         aggregate_at grouped k p d = None)
    ∧ daily_aggregate two_ebay_prices
      = Ok [(("Dell|24|16:9|144|1", VStr "ebay", VDate 2024 1 1),
             FFinite 210)].
Proof.
  apply (daily_aggregate_is_mean missing_price_table).
  split; [simpl; has_columns|].
  apply Forall_cons_2; [left; vm_compute; exact I|].
  apply Forall_cons_2; [right; vm_compute; reflexivity|].
  apply Forall_nil_2.
Defined.

(** ** The Loader and the main block *)

Lemma for_each_app {A S} (body : S -> A -> prog S) (xs ys : list A) acc w :
  for_each (xs ++ ys) body acc w
  = match for_each xs body acc w with
    | (w', Ok acc') => for_each ys body acc' w'
    | (w', Raise e) => (w', Raise e)
    end.
Proof.
  revert acc w. induction xs as [|x xs IH]; intros acc w; [reflexivity|].
  cbn [app for_each]. unfold mbind, prog_mbind, prog_bind.
  destruct (body acc x w) as [w1 [acc1|e]]; [apply IH | reflexivity].
Qed.

Lemma missing_cols_some df c :
  c ∈ required_columns -> c ∉ columns df -> missing_cols df ≠ [].
Proof.
  intros Hc Hn Hnil.
  assert (Hin : c ∈ missing_cols df) by (by apply list_elem_of_filter).
  rewrite Hnil in Hin. by apply not_elem_of_nil in Hin.
Qed.

Lemma load_file_missing to_date ns platform dfs file t w :
  read_csv file = Some t ->
  missing_cols (frame_of_csv t) ≠ [] ->
  load_file to_date ns platform dfs file w
  = (extend w [warning (MissingColumns (file_path file)
                          (missing_cols (frame_of_csv t)))], Ok dfs).
Proof.
  intros Hr Hm. unfold load_file.
  rewrite (prepare_file_missing to_date ns platform file t Hr Hm).
  reflexivity.
Qed.

(** C9. A file whose normalized header lacks a required column adds
    nothing to the frames collected: its turn of the loop returns the list
    of frames it was given, logs one warning that names the missing
    columns, and raises nothing; the loop then goes on with the files that
    follow, and the frames a directory yields are those it yields without
    the file. *)
Theorem file_missing_column_is_skipped (to_date : value -> value)
    (ns : gmap string pyobj) (platform : string) (file : csv_file)
    (t : csv_table) :
  read_csv file = Some t ->
  (∃ c, c ∈ required_columns ∧ c ∉ map normalize_column (header t)) ->
  let note := warning (MissingColumns (file_path file)
                         (missing_cols (frame_of_csv t))) in
  missing_cols (frame_of_csv t) ≠ []
  ∧ (∀ dfs w, load_file to_date ns platform dfs file w
              = (extend w [note], Ok dfs))
  ∧ (∀ rest dfs w,
       for_each (file :: rest) (load_file to_date ns platform) dfs w
       = for_each rest (load_file to_date ns platform) dfs (extend w [note]))
  ∧ (∀ before after dfs w,
       snd (for_each (before ++ file :: after)
                     (load_file to_date ns platform) dfs w)
       = snd (for_each (before ++ after)
                       (load_file to_date ns platform) dfs w)).
Proof.
  intros Hr [c [Hc Hn]] note.
  assert (Hm : missing_cols (frame_of_csv t) ≠ [])
    by (by apply (missing_cols_some _ c)).
  assert (Hturn : ∀ dfs w, load_file to_date ns platform dfs file w
                           = (extend w [note], Ok dfs))
    by (intros; by apply load_file_missing).
  assert (Hloop : ∀ rest dfs w,
       for_each (file :: rest) (load_file to_date ns platform) dfs w
       = for_each rest (load_file to_date ns platform) dfs (extend w [note])).
  { intros rest dfs w. cbn [for_each].
    unfold mbind, prog_mbind, prog_bind. by rewrite Hturn. }
  split; [done|]. split; [done|]. split; [done|].
  intros before after dfs w. rewrite !for_each_app.
  destruct (for_each before (load_file to_date ns platform) dfs w)
    as [w1 [dfs1|e]]; [|reflexivity].
  rewrite Hloop.
  destruct (for_each_frame (load_file to_date ns platform) after
              (fun acc x => load_file_frame to_date ns platform acc x) dfs1)
    as [l [r [_ H]]].
  by rewrite !H.
Qed.

Lemma file_missing_column_is_skipped_witness :
  load_file keep_dates notebook_globals "ebay" [] brandless_file initial_world
  = (extend initial_world
       [warning (MissingColumns (file_path brandless_file) ["brand"])],
     Ok []).
Proof.
  refine (proj1 (proj2 (file_missing_column_is_skipped keep_dates
            notebook_globals "ebay" brandless_file _ eq_refl _))
            [] initial_world).
  exists "brand". split; apply (bool_decide_unpack _); vm_compute; exact I.
Defined.

Lemma main_body_empty to_date astype_str pd_concat env ns disk w df :
  load_cleaned_data to_date pd_concat ns disk
    (extend initial_world [info LoadingMonitorData]) = (w, Ok df) ->
  df_empty df = true ->
  main_body to_date astype_str pd_concat env ns disk initial_world
  = (extend w [error NoCleanedData], Raise (SystemExit 1)).
Proof.
  intros Hload Hempty. unfold main_body, mbind, prog_mbind, prog_bind.
  cbv beta. rewrite emit_extend. cbv beta iota. rewrite Hload.
  cbv beta iota. rewrite Hempty. reflexivity.
Qed.

Lemma main_empty to_date astype_str pd_concat env ns disk w df :
  load_cleaned_data to_date pd_concat ns disk
    (extend initial_world [info LoadingMonitorData]) = (w, Ok df) ->
  df_empty df = true ->
  main to_date astype_str pd_concat env ns disk initial_world
  = (extend w [error NoCleanedData], Raise (SystemExit 1)).
Proof.
  intros Hload Hempty. unfold main, try_except.
  by rewrite (main_body_empty to_date astype_str pd_concat env ns disk w df).
Qed.



(** ** The two directories of results, before the [try] *)

Lemma main_block_reaches_try to_date astype_str pd_concat env ns disk w :
  mkdir_error env w results_dir = None ->
  mkdir_error env w monitors_dir = None ->
  main_block to_date astype_str pd_concat env ns disk w
  = main to_date astype_str pd_concat env ns disk w.
Proof.
  intros H1 H2. unfold main_block, mkdir, attempt, mbind, prog_mbind,
    prog_bind.
  by rewrite H1, H2.
Qed.

Lemma run_script_reaches_try to_date astype_str pd_concat env ns disk :
  mkdir_error env initial_world results_dir = None ->
  mkdir_error env initial_world monitors_dir = None ->
  run_script to_date astype_str pd_concat env ns disk
  = run to_date astype_str pd_concat env ns disk.
Proof.
  intros H1 H2. unfold run_script, run.
  by rewrite main_block_reaches_try.
Qed.

Lemma main_block_mkdir_raises to_date astype_str pd_concat env ns disk w e :
  mkdir_error env w results_dir = Some e
  ∨ (mkdir_error env w results_dir = None
     ∧ mkdir_error env w monitors_dir = Some e) ->
  main_block to_date astype_str pd_concat env ns disk w = (w, Raise e).
Proof.
  unfold main_block, mkdir, attempt, mbind, prog_mbind, prog_bind.
  intros [H1 | [H1 H2]]; rewrite H1; [reflexivity|]. by rewrite H2.
Qed.

Lemma main_block_cases to_date astype_str pd_concat env ns disk w :
  main_block to_date astype_str pd_concat env ns disk w
  = main to_date astype_str pd_concat env ns disk w
  ∨ ∃ e, (mkdir_error env w results_dir = Some e
          ∨ mkdir_error env w monitors_dir = Some e)
         ∧ main_block to_date astype_str pd_concat env ns disk w
           = (w, Raise e).
Proof.
  destruct (mkdir_error env w results_dir) as [e|] eqn:E1.
  - right. exists e. split; [by left|].
    apply main_block_mkdir_raises. by left.
  - destruct (mkdir_error env w monitors_dir) as [e|] eqn:E2.
    + right. exists e. split; [by right|].
      apply main_block_mkdir_raises. by right.
    + left. by apply main_block_reaches_try.
Qed.




(** C10. When the Loader returns an empty table, the run ends with the
    error record that no cleaned data was found as the last record of the
    log, with exit status 1 and without a chart; the exit does not pass
    through the handler of the main block, whose record, the only one with
    a traceback, is not in the log.  The run is taken from the [try]
    statement on; it is the run of the script when the two directories of
    results have been created before. *)
Theorem empty_table_terminates_run (to_date : value -> value)
    (astype_str : value -> string)
    (pd_concat : list DataFrame -> result DataFrame) (env : outside)
    (ns : gmap string pyobj)
    (disk : string -> directory) (w : world) (df : DataFrame) :
  load_cleaned_data to_date pd_concat ns disk
    (extend initial_world [info LoadingMonitorData]) = (w, Ok df) ->
  df_empty df = true ->
  run to_date astype_str pd_concat env ns disk
  = ({| log := log w ++ [error NoCleanedData]; charts := [] |}, 1)
  ∧ snd (main to_date astype_str pd_concat env ns disk initial_world)
    = Raise (SystemExit 1)
  ∧ Forall plain (log w ++ [error NoCleanedData])
  ∧ (mkdir_error env initial_world results_dir = None ->
     mkdir_error env initial_world monitors_dir = None ->
     run_script to_date astype_str pd_concat env ns disk
     = ({| log := log w ++ [error NoCleanedData]; charts := [] |}, 1)).
Proof.
  intros Hload Hempty.
  destruct (load_cleaned_data_frame to_date pd_concat ns disk)
    as [l [r [Hp H]]].
  pose proof (main_empty to_date astype_str pd_concat env ns disk w df
                Hload Hempty) as Hrun.
  rewrite H in Hload. injection Hload as <- ->.
  assert (Hr : run to_date astype_str pd_concat env ns disk
    = ({| log := log (extend (extend initial_world [info LoadingMonitorData])
                        l) ++ [error NoCleanedData];
          charts := [] |}, 1))
    by (unfold run; rewrite Hrun; reflexivity).
  split; [exact Hr|]. split; [|split].
  - by rewrite Hrun.
  - simpl. apply Forall_cons_2; [done|]. apply Forall_app. split; [done|].
    by apply Forall_cons_2.
  - intros H1 H2. by rewrite run_script_reaches_try.
Qed.

Lemma empty_table_terminates_run_witness :
  run keep_dates Repr.py_str concat_rows no_fault notebook_globals sample_disk
  = ({| log := log (fst (load_cleaned_data keep_dates concat_rows
                           notebook_globals sample_disk
                           (extend initial_world [info LoadingMonitorData])))
               ++ [error NoCleanedData];
        charts := [] |}, 1).
Proof.
  refine (proj1 (empty_table_terminates_run keep_dates Repr.py_str
                   concat_rows no_fault notebook_globals sample_disk _
                   empty_frame _ _)).
  - vm_compute. reflexivity.
  - reflexivity.
Defined.

(** C4, counterexample. With a flipkart directory that cannot be reached
    the Loader raises [PermissionError] inside the [try] suite; the run
    logs the critical error and ends with exit status 0. *)
Lemma critical_error_exits_zero :
  (∃ w, main_body keep_dates Repr.py_str concat_rows no_fault
          notebook_globals faulty_disk initial_world
        = (w, Raise (PermissionError "flipkart")))
  ∧ snd (run_script keep_dates Repr.py_str concat_rows no_fault
           notebook_globals faulty_disk) = 0
  ∧ last (log (fst (run_script keep_dates Repr.py_str concat_rows no_fault
                      notebook_globals faulty_disk)))
    = Some (critical (PermissionError "flipkart")).
Proof.
  split; [eexists; vm_compute; reflexivity|].
  split; reflexivity.
Qed.

(** C4, as amended. An exception of class [Exception] raised anywhere in
    the [try] suite is caught by the handler of the main block, which logs
    it as a critical error with the traceback; the run then ends normally,
    with exit status 0.  No such exception leaves the [try] statement.
    The two [mkdir] calls that come before the [try] are not covered by
    the handler: an exception one of them raises leaves the main block,
    with nothing logged; and an exception that leaves the main block is no
    [Exception] or comes from one of these two calls. *)
Theorem top_level_handler_logs_and_ends (to_date : value -> value)
    (astype_str : value -> string)
    (pd_concat : list DataFrame -> result DataFrame) (env : outside)
    (ns : gmap string pyobj) (disk : string -> directory) :
  (∀ w e, main_body to_date astype_str pd_concat env ns disk initial_world
          = (w, Raise e) ->
          is_Exception e = true ->
          run to_date astype_str pd_concat env ns disk
          = (extend w [critical e], 0)
          ∧ (mkdir_error env initial_world results_dir = None ->
             mkdir_error env initial_world monitors_dir = None ->
             run_script to_date astype_str pd_concat env ns disk
             = (extend w [critical e], 0)))
  ∧ (∀ e, snd (main to_date astype_str pd_concat env ns disk initial_world)
          = Raise e ->
          is_Exception e = false)
  ∧ (∀ e, mkdir_error env initial_world results_dir = Some e
          ∨ (mkdir_error env initial_world results_dir = None
             ∧ mkdir_error env initial_world monitors_dir = Some e) ->
          main_block to_date astype_str pd_concat env ns disk initial_world
          = (initial_world, Raise e))
  ∧ (∀ e, snd (main_block to_date astype_str pd_concat env ns disk
                 initial_world) = Raise e ->
          is_Exception e = false
          ∨ mkdir_error env initial_world results_dir = Some e
          ∨ mkdir_error env initial_world monitors_dir = Some e).
Proof.
  assert (Htry : ∀ e,
    snd (main to_date astype_str pd_concat env ns disk initial_world)
    = Raise e -> is_Exception e = false).
  { intros e. unfold main, try_except.
    destruct (main_body to_date astype_str pd_concat env ns disk
                initial_world) as [w [[]|e']]; [discriminate|].
    destruct (is_Exception e') eqn:He'; simpl.
    - discriminate.
    - by intros [= <-]. }
  split; [|split; [exact Htry|split]].
  - intros w e Hbody He.
    assert (Hr : run to_date astype_str pd_concat env ns disk
                 = (extend w [critical e], 0)).
    { unfold run, main, try_except. rewrite Hbody, He. reflexivity. }
    split; [exact Hr|]. intros H1 H2. by rewrite run_script_reaches_try.
  - intros e. apply main_block_mkdir_raises.
  - intros e.
    destruct (main_block_cases to_date astype_str pd_concat env ns disk
                initial_world) as [-> | [e' [Hm ->]]].
    + intros H. left. by apply Htry.
    + simpl. intros [= <-]. right. exact Hm.
Qed.

Lemma top_level_handler_logs_and_ends_witness :
  run_script keep_dates Repr.py_str concat_rows no_fault notebook_globals
    faulty_disk
  = (extend (fst (main_body keep_dates Repr.py_str concat_rows no_fault
                    notebook_globals faulty_disk initial_world))
       [critical (PermissionError "flipkart")], 0)
  ∧ main_block keep_dates Repr.py_str concat_rows no_results_dir
      notebook_globals faulty_disk initial_world
    = (initial_world, Raise (PermissionError results_dir)).
Proof.
  split.
  - refine (proj2 (proj1 (top_level_handler_logs_and_ends keep_dates
                            Repr.py_str concat_rows no_fault
                            notebook_globals faulty_disk) _ _ _ _) _ _).
    + vm_compute. reflexivity.
    + reflexivity.
    + reflexivity.
    + reflexivity.
  - apply (proj1 (proj2 (proj2 (top_level_handler_logs_and_ends keep_dates
                                  Repr.py_str concat_rows no_results_dir
                                  notebook_globals faulty_disk)))).
    left. reflexivity.
Defined.

(** * Further properties *)

(** ** Column names *)

Ltac all_chars c := destruct c as [[] [] [] [] [] [] [] []]; reflexivity.

Lemma lower_is_map s : Text.lower s = map_chars Text.lower_char s.
Proof. induction s as [|c s IH]; simpl; congruence. Qed.

Lemma replace_is_map old new s :
  Text.replace_char old new s
  = map_chars (fun c => if Ascii.eqb c old then new else c) s.
Proof. induction s as [|c s IH]; simpl; congruence. Qed.

Lemma map_chars_compose f g s :
  map_chars f (map_chars g s) = map_chars (fun c => f (g c)) s.
Proof. induction s as [|c s IH]; simpl; congruence. Qed.

Lemma map_chars_ext f g s :
  (forall c, f c = g c) -> map_chars f s = map_chars g s.
Proof. intros H. induction s as [|c s IH]; simpl; congruence. Qed.

Lemma map_chars_all (q : ascii -> bool) f s :
  (forall c, q (f c) = true) -> Text.all_chars q (map_chars f s) = true.
Proof. intros H. induction s as [|c s IH]; simpl; [done|]. by rewrite H. Qed.

Lemma lstrip_head_clean p s : head_clean p (Text.lstrip_chars p s) = true.
Proof.
  induction s as [|c s IH]; [reflexivity|].
  simpl. destruct (p c) eqn:E; [exact IH | simpl; by rewrite E].
Qed.

Lemma lstrip_of_clean p s :
  head_clean p s = true -> Text.lstrip_chars p s = s.
Proof. destruct s as [|c s]; simpl; [done|]. by destruct (p c). Qed.

Lemma rstrip_head_clean p s :
  head_clean p s = true -> head_clean p (Text.rstrip_chars p s) = true.
Proof.
  destruct s as [|c s]; simpl; [done|]. intros H.
  destruct (Text.rstrip_chars p s); [|exact H].
  destruct (p c) eqn:E; simpl in *; rewrite ?E; done.
Qed.

Lemma rstrip_last_clean p s : last_clean p (Text.rstrip_chars p s) = true.
Proof.
  induction s as [|c s IH]; [reflexivity|].
  simpl. destruct (Text.rstrip_chars p s) as [|d t] eqn:E.
  - destruct (p c) eqn:Ec; simpl; [done | by rewrite Ec].
  - exact IH.
Qed.

Lemma rstrip_of_clean p s :
  last_clean p s = true -> Text.rstrip_chars p s = s.
Proof.
  induction s as [|c s IH]; [reflexivity|].
  destruct s as [|d s'].
  - simpl. by destruct (p c).
  - intros H. change (last_clean p (String d s') = true) in H.
    cbn [Text.rstrip_chars]. cbn [Text.rstrip_chars] in IH.
    rewrite (IH H). reflexivity.
Qed.

Lemma strip_of_clean p s :
  head_clean p s = true -> last_clean p s = true ->
  Text.strip_chars p s = s.
Proof.
  intros Hh Hl. unfold Text.strip_chars.
  by rewrite lstrip_of_clean, rstrip_of_clean.
Qed.

Lemma strip_clean p s :
  head_clean p (Text.strip_chars p s) = true
  /\ last_clean p (Text.strip_chars p s) = true.
Proof.
  unfold Text.strip_chars. split.
  - apply rstrip_head_clean, lstrip_head_clean.
  - apply rstrip_last_clean.
Qed.

Lemma map_chars_head_clean p f s :
  (forall c, p (f c) = true -> p c = true) ->
  head_clean p s = true -> head_clean p (map_chars f s) = true.
Proof.
  intros Hf. destruct s as [|c s]; simpl; [done|].
  destruct (p (f c)) eqn:E; [|done]. by rewrite (Hf c E).
Qed.

Lemma map_chars_last_clean p f s :
  (forall c, p (f c) = true -> p c = true) ->
  last_clean p s = true -> last_clean p (map_chars f s) = true.
Proof.
  intros Hf. induction s as [|c s IH]; [done|].
  destruct s as [|d s'].
  - simpl. destruct (p (f c)) eqn:E; [|done]. by rewrite (Hf c E).
  - intros H. change (last_clean p (String d s') = true) in H.
    exact (IH H).
Qed.

Lemma normalize_column_map col :
  normalize_column col = map_chars normalize_char (Text.strip col).
Proof.
  unfold normalize_column. rewrite replace_is_map, lower_is_map.
  by rewrite map_chars_compose.
Qed.

Lemma normalize_char_idem c : normalize_char (normalize_char c) = normalize_char c.
Proof. all_chars c. Qed.

Lemma normalize_char_space c :
  Text.is_space (normalize_char c) = true -> Text.is_space c = true.
Proof. destruct c as [[] [] [] [] [] [] [] []]; vm_compute; congruence. Qed.

Lemma normalize_char_plain c :
  negb (is_blank (normalize_char c)) && negb (is_upper (normalize_char c))
  = true.
Proof. all_chars c. Qed.

(** X1. A normalized column name holds no blank and no upper-case letter,
    neither starts nor ends with white space, and normalizing it again
    gives it back. *)
Theorem normalize_column_normal (col : string) :
  Text.all_chars (fun c => negb (is_blank c) && negb (is_upper c))
    (normalize_column col) = true
  /\ head_clean Text.is_space (normalize_column col) = true
  /\ last_clean Text.is_space (normalize_column col) = true
  /\ normalize_column (normalize_column col) = normalize_column col.
Proof.
  assert (Hh : head_clean Text.is_space (normalize_column col) = true).
  { rewrite normalize_column_map.
    apply map_chars_head_clean; [apply normalize_char_space|].
    apply strip_clean. }
  assert (Hl : last_clean Text.is_space (normalize_column col) = true).
  { rewrite normalize_column_map.
    apply map_chars_last_clean; [apply normalize_char_space|].
    apply strip_clean. }
  split; [|split; [done|split; [done|]]].
  - rewrite normalize_column_map.
    apply map_chars_all. apply normalize_char_plain.
  - rewrite (normalize_column_map (normalize_column col)).
    unfold Text.strip. rewrite strip_of_clean by done.
    rewrite normalize_column_map, map_chars_compose.
    apply map_chars_ext. apply normalize_char_idem.
Qed.

(** ** Chart files shared by two identifiers *)

Lemma sanitized_title_map s :
  sanitized_title s = map_chars sanitize_char s.
Proof.
  induction s as [|c s IH]; [reflexivity|].
  rewrite sanitized_title_cons. simpl. by rewrite IH.
Qed.

Lemma append_length (a b : string) :
  String.length (a +:+ b) = (String.length a + String.length b)%nat.
Proof.
  induction a as [|c a IH]; [reflexivity|].
  change (S (String.length (a +:+ b))
          = S (String.length a + String.length b)). by rewrite IH.
Qed.

Lemma append_cancel_r (a b s : string) : a +:+ s = b +:+ s -> a = b.
Proof.
  revert b. induction a as [|c a IH]; intros b H.
  - destruct b as [|d b]; [done|].
    change (s = String d (b +:+ s)) in H.
    apply (f_equal String.length) in H.
    simpl in H. rewrite append_length in H. lia.
  - destruct b as [|d b].
    + change (String c (a +:+ s) = s) in H.
      apply (f_equal String.length) in H.
      simpl in H. rewrite append_length in H. lia.
    + change (String c (a +:+ s) = String d (b +:+ s)) in H.
      injection H as -> H. by rewrite (IH b H).
Qed.

Lemma map_chars_app f (a b : string) :
  map_chars f (a +:+ b) = map_chars f a +:+ map_chars f b.
Proof.
  induction a as [|c a IH]; [reflexivity|].
  change (String (f c) (map_chars f (a +:+ b))
          = String (f c) (map_chars f a +:+ map_chars f b)). by rewrite IH.
Qed.

(** X2. Two identifiers are charted in the same file exactly when they
    agree character by character once every character that is neither a
    word character nor white space is read as an underscore; so two
    identifiers that differ in such characters only (["16:9"] against
    ["16_9"], say) share a file, the later chart replacing the earlier. *)
Theorem file_name_collisions (k1 k2 : string) :
  (file_name k1 = file_name k2
   <-> map_chars sanitize_char k1 = map_chars sanitize_char k2)
  /\ (forall a b c1 c2,
        sanitize_char c1 = sanitize_char c2 ->
        file_name (a +:+ String c1 b) = file_name (a +:+ String c2 b)).
Proof.
  assert (Hiff : forall x y, file_name x = file_name y
                   <-> map_chars sanitize_char x = map_chars sanitize_char y).
  { intros x y. unfold file_name. rewrite !sanitized_title_map. split.
    - intros H. apply (inj (String.append "Monitor_")) in H.
      by apply append_cancel_r in H.
    - by intros ->. }
  split; [apply Hiff|].
  intros a b c1 c2 H. apply Hiff.
  rewrite !map_chars_app. simpl. by rewrite H.
Qed.

Lemma file_name_collisions_witness :
  file_name ("Dell|24|16" +:+ String ":" "9|144|1")
  = file_name ("Dell|24|16" +:+ String "_" "9|144|1").
Proof.
  apply (proj2 (file_name_collisions "" "")). reflexivity.
Defined.

(** ** The conversion of the screen size, beyond the nearest integer *)

Lemma Qfloor_half (n : Z) : Qfloor (inject_Z n + (1 # 2)) = n.
Proof.
  pose proof (Qfloor_le (inject_Z n + (1 # 2))) as Hle.
  pose proof (Qlt_floor (inject_Z n + (1 # 2))) as Hlt.
  set (f := Qfloor _) in *.
  assert (H1 : (inject_Z f < inject_Z (n + 1))%Q).
  { rewrite inject_Z_plus. change (inject_Z 1) with 1%Q. lra. }
  assert (H2 : (inject_Z n < inject_Z (f + 1))%Q) by lra.
  rewrite <- Zlt_Qlt in H1, H2. lia.
Qed.

Lemma round_half_even_tie (n : Z) :
  Num.round_half_even (inject_Z n + (1 # 2))
  = if Z.even n then n else n + 1.
Proof.
  unfold Num.round_half_even. rewrite Qfloor_half.
  assert (H : (inject_Z n + (1 # 2) - inject_Z n ?= 1 # 2)%Q = Eq).
  { apply (proj1 (Qeq_alt _ _)). lra. }
  by rewrite H.
Qed.

Lemma screen_size_lambda_result x v :
  screen_size_lambda x = Ok v ->
  (pd_notnull x = false /\ v = VNone)
  \/ (pd_notnull x = true /\ exists n, v = VInt n).
Proof.
  unfold screen_size_lambda. destruct (pd_notnull x).
  - destruct (Num.py_float x) as [f|e]; [|discriminate]. rewrite bind_Ok.
    destruct (Num.py_round f) as [n|e]; [|discriminate]. rewrite bind_Ok.
    intros [= <-]. right. eauto.
  - intros [= <-]. by left.
Qed.

Lemma screen_size_lambda_int n :
  Z.abs n <= 2 ^ 53 -> screen_size_lambda (VInt n) = Ok (VInt n).
Proof.
  intros H. unfold screen_size_lambda. simpl pd_notnull. cbv iota.
  rewrite py_float_exact_int by done. rewrite bind_Ok. simpl.
  by rewrite round_half_even_integer.
Qed.

(** X3. How the conversion of the screen size rounds, and what it
    returns.  A value half way between two integers goes to the even one,
    so 22.5 becomes 22 and 23.5 becomes 24.  Whatever the cell, a result
    is [None] (the cell was missing) or an integer (it was not).  An
    integer that a double holds exactly is left as it is, so the lambda
    applied to its own results returns them unchanged. *)
Theorem screen_size_rounding :
  (forall n : Z,
     screen_size_lambda (VFloat (FFinite (inject_Z n + (1 # 2))))
     = Ok (VInt (if Z.even n then n else n + 1)))
  /\ (forall x v, screen_size_lambda x = Ok v ->
        (pd_notnull x = false /\ v = VNone)
        \/ (pd_notnull x = true /\ exists n, v = VInt n))
  /\ (forall n, Z.abs n <= 2 ^ 53 ->
        screen_size_lambda (VInt n) = Ok (VInt n))
  /\ (forall series series',
        mapM screen_size_lambda series = Ok series' ->
        Forall (fun v => forall n, v = VInt n -> Z.abs n <= 2 ^ 53) series' ->
        mapM screen_size_lambda series' = Ok series').
Proof.
  split; [|split; [|split]].
  - intros n. unfold screen_size_lambda. simpl.
    by rewrite round_half_even_tie.
  - apply screen_size_lambda_result.
  - apply screen_size_lambda_int.
  - intros series. induction series as [|x series IH]; intros series'; simpl.
    + by intros [= <-].
    + destruct (screen_size_lambda x) as [v|e] eqn:Ex; [|discriminate].
      rewrite bind_Ok.
      destruct (mapM screen_size_lambda series) as [vs|e]; [|discriminate].
      rewrite bind_Ok. intros [= <-] Hsmall.
      apply Forall_cons in Hsmall as [Hv Hvs]. simpl.
      apply screen_size_lambda_result in Ex as [[_ ->]|[_ [n ->]]].
      * change (screen_size_lambda VNone) with (Ok VNone).
        rewrite bind_Ok. by rewrite (IH vs).
      * rewrite screen_size_lambda_int by (by apply Hv).
        rewrite bind_Ok. by rewrite (IH vs).
Qed.

Lemma screen_size_rounding_witness :
  screen_size_lambda (VInt 24) = Ok (VInt 24).
Proof.
  apply (proj1 (proj2 (proj2 screen_size_rounding))). simpl. lia.
Defined.

Lemma py_float_raises x e :
  Num.py_float x = Raise e ->
  e = TypeError \/ e = ValueError \/ e = OverflowError.
Proof.
  destruct x as [s|z|f| | |y m d]; simpl; try (intros [= <-]; tauto);
    try discriminate.
  - unfold Num.float_of_text.
    destruct (Num.sign_part _) as [neg body].
    destruct (Num.special_literal body); [discriminate|].
    destruct (Num.decimal_literal body); simpl; [discriminate|].
    intros [= <-]. tauto.
  - destruct (Num.overflow_threshold <=? Z.abs z); [|discriminate].
    intros [= <-]. tauto.
Qed.

(** X4. What the conversion of the screen size raises.  A date is a
    [TypeError]; an infinite float, a text that reads as an infinity, and
    an integer beyond the range of a double are an [OverflowError]; a text
    that reads as the missing number is a [ValueError], although a missing
    number itself becomes [None]; nothing else than these three classes is
    ever raised, and one raising cell makes the [apply] over the column
    raise. *)
Theorem screen_size_errors :
  (forall y m d, screen_size_lambda (VDate y m d) = Raise TypeError)
  /\ (forall b, screen_size_lambda (VFloat (FInf b)) = Raise OverflowError)
  /\ (forall s b, Num.float_of_text s = Ok (FInf b) ->
        screen_size_lambda (VStr s) = Raise OverflowError)
  /\ (forall z, Num.overflow_threshold <= Z.abs z ->
        screen_size_lambda (VInt z) = Raise OverflowError)
  /\ (forall s, Num.float_of_text s = Ok FNaN ->
        screen_size_lambda (VStr s) = Raise ValueError)
  /\ screen_size_lambda VNaN = Ok VNone
  /\ (forall x e, screen_size_lambda x = Raise e ->
        (e = TypeError \/ e = ValueError \/ e = OverflowError)
        /\ forall series, x ∈ series ->
             exists e', mapM screen_size_lambda series = Raise e').
Proof.
  repeat split; try reflexivity.
  - intros s b H. unfold screen_size_lambda. simpl. by rewrite H.
  - intros z H. unfold screen_size_lambda. simpl.
    destruct (Z.leb_spec Num.overflow_threshold (Z.abs z)); [done | lia].
  - intros s H. unfold screen_size_lambda. simpl. by rewrite H.
  - revert H. unfold screen_size_lambda.
    destruct (pd_notnull x); [|discriminate].
    destruct (Num.py_float x) as [f|e1] eqn:Ef.
    + rewrite bind_Ok. destruct f as [q|b|]; simpl;
        try discriminate; intros [= <-]; tauto.
    + intros [= <-]. by apply py_float_raises in Ef.
  - intros series Hin. by apply (mapM_raises _ _ x e).
Qed.

Lemma screen_size_errors_witness :
  screen_size_lambda (VStr " -Infinity ") = Raise OverflowError
  /\ screen_size_lambda (VStr "NaN") = Raise ValueError.
Proof.
  split.
  - apply (proj1 (proj2 (proj2 screen_size_errors)) _ true).
    vm_compute. reflexivity.
  - apply (proj1 (proj2 (proj2 (proj2 (proj2 screen_size_errors))))).
    vm_compute. reflexivity.
Defined.

(** ** The turns of the Loader *)

Lemma load_file_unreadable to_date ns platform dfs file w :
  read_csv file = None ->
  load_file to_date ns platform dfs file w
  = (extend w [error (ErrorLoading (file_path file) ReadError)], Ok dfs).
Proof.
  intros H. unfold load_file.
  by rewrite (prepare_file_unreadable to_date ns platform file H).
Qed.

(** X7. A file [pd.read_csv] fails on is skipped: its turn logs one error
    that names the file, returns the frames collected so far and raises
    nothing, whatever the namespace; the frames a directory yields are
    those it yields without the file. *)
Theorem unreadable_file_is_skipped (to_date : value -> value)
    (ns : gmap string pyobj) (platform : string) (file : csv_file) :
  read_csv file = None ->
  (forall dfs w,
     load_file to_date ns platform dfs file w
     = (extend w [error (ErrorLoading (file_path file) ReadError)], Ok dfs))
  /\ (forall before after dfs w,
        snd (for_each (before ++ file :: after)
                      (load_file to_date ns platform) dfs w)
        = snd (for_each (before ++ after)
                        (load_file to_date ns platform) dfs w)).
Proof.
  intros Hr.
  assert (Hturn : forall dfs w,
     load_file to_date ns platform dfs file w
     = (extend w [error (ErrorLoading (file_path file) ReadError)], Ok dfs))
    by (intros; by apply load_file_unreadable).
  split; [done|].
  intros before after dfs w. rewrite !for_each_app.
  destruct (for_each before (load_file to_date ns platform) dfs w)
    as [w1 [dfs1|e]]; [|reflexivity].
  cbn [for_each]. unfold mbind, prog_mbind, prog_bind. rewrite Hturn.
  destruct (for_each_frame (load_file to_date ns platform) after
              (fun acc x => load_file_frame to_date ns platform acc x) dfs1)
    as [l [r [_ H]]].
  by rewrite !H.
Qed.

Lemma unreadable_file_is_skipped_witness :
  load_file keep_dates notebook_globals "ebay" [] unreadable_file
    initial_world
  = (extend initial_world
       [error (ErrorLoading (file_path unreadable_file) ReadError)], Ok []).
Proof.
  exact (proj1 (unreadable_file_is_skipped keep_dates notebook_globals "ebay"
                  unreadable_file eq_refl) [] initial_world).
Defined.

(** X8. One turn of the file loop, whatever the file and the namespace:
    it writes no chart, adds at most one record to the log, returns the
    frames it was given with at most one frame added at the end, and lets
    no exception of class [Exception] out. *)
Theorem load_file_turn (to_date : value -> value) (ns : gmap string pyobj)
    (platform : string) (dfs : list DataFrame) (file : csv_file) (w : world) :
  exists l, fst (load_file to_date ns platform dfs file w) = extend w l
    /\ (length l <= 1)%nat
    /\ match snd (load_file to_date ns platform dfs file w) with
       | Ok dfs' => dfs' = dfs \/ exists df, dfs' = dfs ++ [df]
       | Raise e => is_Exception e = false
       end.
Proof.
  unfold load_file, try_except, lift.
  destruct (prepare_file to_date ns platform file) as [[missing|df]|e] eqn:E.
  - exists [warning (MissingColumns (file_path file) missing)].
    split; [reflexivity|]. split; [simpl; lia|]. by left.
  - exists []. split; [run_prog; by rewrite extend_nil|].
    split; [simpl; lia|]. right. by exists df.
  - destruct (is_Exception e) eqn:Ee.
    + exists [error (ErrorLoading (file_path file) e)].
      run_prog. rewrite Ee. split; [reflexivity|]. split; [simpl; lia|].
      by left.
    + exists []. run_prog. rewrite Ee. simpl.
      split; [by rewrite extend_nil|]. split; [lia | done].
Qed.

Lemma load_file_escape to_date ns platform dfs file w e :
  snd (load_file to_date ns platform dfs file w) = Raise e ->
  is_Exception e = false.
Proof.
  unfold load_file, try_except, lift.
  destruct (prepare_file to_date ns platform file) as [[missing|df]|e1].
  - run_prog. discriminate.
  - run_prog. discriminate.
  - destruct (is_Exception e1) eqn:Ee; run_prog; rewrite Ee; simpl;
      [discriminate | by intros [= <-]].
Qed.

Lemma for_each_only_access_fault {A S} (body : S -> A -> prog S)
    (P : exn -> Prop) (xs : list A) :
  (forall acc x w e, snd (body acc x w) = Raise e -> P e) ->
  forall acc w e, snd (for_each xs body acc w) = Raise e -> P e.
Proof.
  intros Hbody. induction xs as [|x xs IH]; intros acc w e; [done|].
  cbn [for_each]. unfold mbind, prog_mbind, prog_bind.
  destruct (body acc x w) as [w1 [acc1|e1]] eqn:E.
  - apply IH.
  - simpl. intros [= <-]. apply (Hbody acc x w). by rewrite E.
Qed.

Lemma platform_loop_escape to_date ns disk (ps : list string) :
  forall acc w e,
    snd (for_each ps (load_platform to_date ns disk) acc w) = Raise e ->
    is_Exception e = false
    \/ exists p, p ∈ ps /\ disk p = DirFault /\ e = PermissionError p.
Proof.
  induction ps as [|p ps IH]; intros acc w e; [discriminate|].
  cbn [for_each]. unfold mbind, prog_mbind, prog_bind.
  destruct (load_platform to_date ns disk acc p w) as [w2 [acc2|e2]] eqn:Ep.
  - intros H. destruct (IH _ _ _ H) as [?|[q [Hq ?]]]; [by left|].
    right. exists q. split; [by right | done].
  - simpl. intros [= <-]. unfold load_platform in Ep.
    destruct (disk p) as [| |files] eqn:Ed.
    + discriminate.
    + right. exists p. injection Ep as _ <-. split; [by left | done].
    + left.
      apply (for_each_only_access_fault (load_file to_date ns p)
               (fun e => is_Exception e = false) files) with (acc := acc)
               (w := w); [|by rewrite Ep].
      intros acc' x w' e'. apply load_file_escape.
Qed.

(** X9. The Loader, whatever the namespace and the disk: it writes no
    chart and only appends records (none with a traceback) to the log; the
    records it appends and what it returns do not depend on the log it
    starts with.  The only exception of class [Exception] that can leave
    the loop over the platforms is the [PermissionError] of a platform
    directory that cannot be reached; so an exception of class [Exception]
    that leaves the Loader is that one, or is raised by [pd.concat] on the
    frames collected. *)
Theorem loader_only_logs (to_date : value -> value)
    (pd_concat : list DataFrame -> result DataFrame)
    (ns : gmap string pyobj) (disk : string -> directory) :
  (exists l r, Forall plain l
     /\ forall w, load_cleaned_data to_date pd_concat ns disk w
                  = (extend w l, r))
  /\ (forall w e,
        snd (for_each platforms (load_platform to_date ns disk) [] w)
        = Raise e ->
        is_Exception e = false
        \/ exists p, p ∈ platforms /\ disk p = DirFault
                     /\ e = PermissionError p)
  /\ (forall w e,
        snd (load_cleaned_data to_date pd_concat ns disk w) = Raise e ->
        is_Exception e = false
        \/ (exists p, p ∈ platforms /\ disk p = DirFault
                      /\ e = PermissionError p)
        \/ exists dfs, dfs <> [] /\ pd_concat dfs = Raise e).
Proof.
  split; [apply load_cleaned_data_frame|].
  split; [apply platform_loop_escape|].
  intros w e. unfold load_cleaned_data, mbind, prog_mbind, prog_bind.
  destruct (for_each platforms (load_platform to_date ns disk) [] w)
    as [w1 [dfs|e1]] eqn:E.
  - destruct dfs as [|df dfs]; [discriminate|].
    unfold lift. simpl. intros H. right. right.
    by exists (df :: dfs).
  - simpl. intros [= <-].
    destruct (platform_loop_escape to_date ns disk platforms [] w e1)
      as [?|?]; [by rewrite E | by left | right; by left].
Qed.

Lemma loader_only_logs_witness :
  is_Exception (PermissionError "flipkart") = false
  \/ exists p, p ∈ platforms /\ faulty_disk p = DirFault
                /\ PermissionError "flipkart" = PermissionError p.
Proof.
  apply (proj1 (proj2 (loader_only_logs keep_dates concat_rows
                         notebook_globals faulty_disk)) initial_world).
  vm_compute. reflexivity.
Defined.

(** ** The Matcher on its own output, and on tables it cannot read *)

Lemma identity_key_of_keyed astype_str (r : gmap string value) :
  identity_key astype_str (keyed astype_str r) = identity_key astype_str r.
Proof.
  unfold identity_key, keyed.
  by rewrite !(cell_insert_ne "product_id") by done.
Qed.

Lemma keyed_keyed astype_str (r : gmap string value) :
  keyed astype_str (keyed astype_str r) = keyed astype_str r.
Proof.
  unfold keyed at 1. rewrite identity_key_of_keyed.
  unfold keyed. by rewrite insert_insert_eq.
Qed.

Lemma cross_platform_same_key astype_str rs (r1 r : gmap string value) :
  same_key (identity_key astype_str r1) (identity_key astype_str r) = true ->
  cross_platform astype_str rs r -> cross_platform astype_str rs r1.
Proof.
  intros Hk. destruct (same_key_is_text _ _ Hk) as [s Hs].
  rewrite Hs in Hk. apply same_key_text in Hk.
  unfold cross_platform. by rewrite Hk, Hs.
Qed.

(** A product matched in a table is matched in the rows returned. *)
Lemma cross_platform_output astype_str (rs : list (gmap string value)) r :
  cross_platform astype_str rs r ->
  cross_platform astype_str
    (map (keyed astype_str) (filter (cross_platform astype_str rs) rs))
    (keyed astype_str r).
Proof.
  intros Hr. pose proof Hr as Hboth. unfold cross_platform in Hboth |- *.
  rewrite both_known_platforms in Hboth |- *.
  rewrite !platform_set_spec in Hboth |- *.
  rewrite identity_key_of_keyed.
  destruct Hboth as [[r1 [Hr1 [Hk1 Hp1]]] [r2 [Hr2 [Hk2 Hp2]]]].
  split.
  - exists (keyed astype_str r1). rewrite identity_key_of_keyed.
    split; [|split; [done|]].
    + apply list_elem_of_fmap. exists r1. split; [done|].
      apply list_elem_of_filter. split; [|done].
      by apply (cross_platform_same_key _ _ _ r).
    + unfold keyed. by rewrite cell_insert_ne.
  - exists (keyed astype_str r2). rewrite identity_key_of_keyed.
    split; [|split; [done|]].
    + apply list_elem_of_fmap. exists r2. split; [done|].
      apply list_elem_of_filter. split; [|done].
      by apply (cross_platform_same_key _ _ _ r).
    + unfold keyed. by rewrite cell_insert_ne.
Qed.

Lemma filter_all {A} (P : A -> Prop) `{forall x, Decision (P x)} (l : list A) :
  Forall P l -> filter P l = l.
Proof.
  induction 1 as [|x l Hx _ IH]; [reflexivity|].
  rewrite filter_cons_True by done. by rewrite IH.
Qed.

Lemma matcher_input_output astype_str df :
  matcher_input df ->
  matcher_input
    {| columns := if bool_decide ("product_id" ∈ columns df)
                  then columns df else columns df ++ ["product_id"];
       rows := map (keyed astype_str)
                   (filter (cross_platform astype_str (rows df)) (rows df)) |}.
Proof.
  intros [Hc Hb]. split; simpl.
  - eapply Forall_impl; [exact Hc|]. intros c H. simpl in H.
    case_bool_decide; [done|]. apply elem_of_app. by left.
  - apply Forall_forall. intros r' Hr'.
    apply list_elem_of_fmap in Hr' as [r [-> Hr]].
    apply list_elem_of_filter in Hr as [_ Hr].
    rewrite Forall_forall in Hb. specialize (Hb r Hr).
    unfold keyed. by rewrite cell_insert_ne.
Qed.

Lemma cross_platform_text_brand astype_str rs (r : gmap string value) :
  cross_platform astype_str rs r -> exists b, cell "brand" r = VStr b.
Proof.
  unfold cross_platform. rewrite both_known_platforms, !platform_set_spec.
  intros [[r1 [_ [Hk _]]] _].
  destruct (same_key_is_text _ _ Hk) as [s Hs]. revert Hs.
  unfold identity_key. destruct (cell "brand" r); try discriminate. eauto.
Qed.

(** The rows the Matcher returns have text brands. *)
Lemma matched_rows_object_brand astype_str (rs : list (gmap string value)) :
  numeric_column
    (map (cell "brand")
         (map (keyed astype_str) (filter (cross_platform astype_str rs) rs)))
  = false.
Proof.
  assert (H : Forall (fun r => exists b, cell "brand" r = VStr b)
                     (filter (cross_platform astype_str rs) rs)).
  { apply Forall_forall. intros r Hr.
    apply list_elem_of_filter in Hr as [Hr _].
    by apply (cross_platform_text_brand astype_str rs). }
  destruct (filter (cross_platform astype_str rs) rs) as [|r l];
    [reflexivity|].
  apply Forall_cons in H as [[b Hb] _]. simpl.
  unfold keyed at 1. rewrite cell_insert_ne by done. by rewrite Hb.
Qed.

(** The Matcher returns only on a brand column of objects. *)
Lemma matcher_returns_object_brand astype_str df out :
  filter_products_by_platforms astype_str df = Ok out ->
  numeric_column (map (cell "brand") (rows df)) = false.
Proof.
  unfold filter_products_by_platforms, assign_product_id, product_id_series,
    get_column.
  destruct (bool_decide ("brand" ∈ columns df)); [|discriminate].
  rewrite bind_Ok. unfold column_add_text.
  by destruct (numeric_column (map (cell "brand") (rows df))).
Qed.

(** X12. The Matcher returns its own output unchanged: on the table it
    returned it returns that very table, rows and columns. *)
Theorem matcher_idempotent (astype_str : value -> string)
    (df out : DataFrame) :
  matcher_input df ->
  filter_products_by_platforms astype_str df = Ok out ->
  filter_products_by_platforms astype_str out = Ok out.
Proof.
  intros Hin Hout.
  pose proof (matcher_returns_object_brand astype_str df out Hout) as Hobj.
  rewrite filter_products_rows in Hout by done. injection Hout as <-.
  rewrite filter_products_rows;
    [|by apply matcher_input_output | apply matched_rows_object_brand].
  f_equal. simpl. f_equal.
  - rewrite bool_decide_eq_true_2; [done|].
    case_bool_decide; [done|]. apply elem_of_app. right.
    by apply list_elem_of_singleton.
  - rewrite filter_all.
    + rewrite map_map. apply map_ext. intros r. apply keyed_keyed.
    + apply Forall_forall. intros r' Hr'.
      apply list_elem_of_fmap in Hr' as [r [-> Hr]].
      apply list_elem_of_filter in Hr as [Hr _].
      by apply cross_platform_output.
Qed.

Lemma matcher_idempotent_witness :
  exists out, filter_products_by_platforms Repr.py_str sample_table = Ok out
    /\ filter_products_by_platforms Repr.py_str out = Ok out.
Proof.
  eexists. split; [vm_compute; reflexivity|].
  apply (matcher_idempotent Repr.py_str sample_table).
  - split; [unfold key_columns; simpl; has_columns|].
    repeat (apply Forall_cons_2; [vm_compute; exact I|]). apply Forall_nil_2.
  - vm_compute. reflexivity.
Defined.

(** X13. The rows the Matcher returns are closed under its criterion: the
    identifier of every row returned is text, and the rows returned hold
    that identifier on an [ebay] row and on a [flipkart] row; so a table
    returned is empty or has at least two rows. *)
Theorem matcher_output_closed (astype_str : value -> string)
    (df out : DataFrame) :
  matcher_input df ->
  filter_products_by_platforms astype_str df = Ok out ->
  (forall r, r ∈ rows out ->
     exists s r1 r2,
       cell "product_id" r = VStr s
       /\ r1 ∈ rows out /\ cell "product_id" r1 = VStr s
       /\ cell "platform" r1 = VStr "ebay"
       /\ r2 ∈ rows out /\ cell "product_id" r2 = VStr s
       /\ cell "platform" r2 = VStr "flipkart")
  /\ (rows out = [] \/ (2 <= length (rows out))%nat).
Proof.
  intros Hin Hout.
  pose proof (matcher_returns_object_brand astype_str df out Hout) as Hobj.
  rewrite filter_products_rows in Hout by done. injection Hout as <-. simpl.
  set (rs := rows df).
  set (out := map (keyed astype_str) (filter (cross_platform astype_str rs) rs)).
  assert (Hclosed : forall r, r ∈ out ->
     exists s r1 r2,
       cell "product_id" r = VStr s
       /\ r1 ∈ out /\ cell "product_id" r1 = VStr s
       /\ cell "platform" r1 = VStr "ebay"
       /\ r2 ∈ out /\ cell "product_id" r2 = VStr s
       /\ cell "platform" r2 = VStr "flipkart").
  { intros r' Hr'. unfold out in Hr'.
    apply list_elem_of_fmap in Hr' as [r [-> Hr]].
    apply list_elem_of_filter in Hr as [Hr _].
    apply cross_platform_output in Hr. fold out in Hr.
    unfold cross_platform in Hr. rewrite both_known_platforms in Hr.
    rewrite !platform_set_spec, !identity_key_of_keyed in Hr.
    destruct Hr as [[r1 [Hr1 [Hk1 Hp1]]] [r2 [Hr2 [Hk2 Hp2]]]].
    destruct (same_key_is_text _ _ Hk1) as [s Hs].
    rewrite Hs in Hk1, Hk2. apply same_key_text in Hk1, Hk2.
    assert (Hid : forall x, x ∈ out ->
              cell "product_id" x = identity_key astype_str x).
    { intros x Hx. unfold out in Hx.
      apply list_elem_of_fmap in Hx as [x0 [-> _]].
      rewrite identity_key_of_keyed. unfold keyed. apply cell_insert. }
    exists s, r1, r2. unfold keyed at 1. rewrite cell_insert.
    rewrite !Hid by done. done. }
  split; [exact Hclosed|].
  destruct out as [|r [|r' out']] eqn:E; [by left| |right; simpl; lia].
  exfalso.
  destruct (Hclosed r) as [s [r1 [r2 [_ [H1 [_ [P1 [H2 [_ P2]]]]]]]]];
    [by apply list_elem_of_singleton|].
  apply list_elem_of_singleton in H1, H2. subst. congruence.
Qed.

Lemma matcher_output_closed_witness :
  exists out, filter_products_by_platforms Repr.py_str sample_table = Ok out
    /\ (rows out = [] \/ (2 <= length (rows out))%nat).
Proof.
  eexists. split; [vm_compute; reflexivity|].
  apply (matcher_output_closed Repr.py_str sample_table).
  - split; [unfold key_columns; simpl; has_columns|].
    repeat (apply Forall_cons_2; [vm_compute; exact I|]). apply Forall_nil_2.
  - vm_compute. reflexivity.
Defined.

Lemma get_column_missing c df :
  c ∉ columns df -> get_column c df = Raise (KeyError c).
Proof. intros H. unfold get_column. by rewrite bool_decide_eq_false_2. Qed.

Lemma mapM_raises_only {A B} (f : A -> result B) (l : list A) (x : A)
    (e : exn) :
  (forall y e', f y = Raise e' -> e' = e) ->
  x ∈ l -> f x = Raise e -> mapM f l = Raise e.
Proof.
  intros Honly Hin Hx.
  induction l as [|y l IH]; [by apply not_elem_of_nil in Hin|].
  simpl. destruct (f y) as [b|e1] eqn:Ey.
  - apply elem_of_cons in Hin as [->|Hin]; [congruence|].
    by rewrite bind_Ok, (IH Hin).
  - by rewrite (Honly y e1 Ey).
Qed.

Lemma add_text_raises x t e : add_text x t = Raise e -> e = TypeError.
Proof.
  unfold add_text. destruct (pd_notnull x); [|discriminate].
  destruct x; try discriminate; by intros [= <-].
Qed.

Lemma filter_all_not {A} (P : A -> Prop) `{forall x, Decision (P x)}
    (l : list A) :
  Forall P l -> filter (fun x => ~ P x) l = [].
Proof.
  induction 1 as [|x l Hx _ IH]; [reflexivity|].
  rewrite filter_cons_False by tauto. exact IH.
Qed.

Ltac read_column c :=
  first [ rewrite (get_column_ok c) by done; rewrite bind_Ok, ?map_map
        | rewrite (get_column_missing c) by done; reflexivity ].

Ltac add_column astype_str c :=
  rewrite (series_add_opt _ (fun r => astype_str (cell c r))), bind_Ok.

(** The identifier column is read from the brand and the four other
    fields, in this order, and stops at the first one the table lacks. *)
Lemma product_id_series_columns astype_str df :
  Forall (fun r => text_or_missing (cell "brand" r)) (rows df) ->
  numeric_column (map (cell "brand") (rows df)) = false ->
  product_id_series astype_str df
  = match filter (fun c => c ∉ columns df) key_columns with
    | [] => Ok (map (identity_key astype_str) (rows df))
    | c :: _ => Raise (KeyError c)
    end.
Proof.
  intros Hbrand Hobj.
  assert (Hs : column_add_text (map (cell "brand") (rows df)) "|"
          = Ok (map (fun r => opt_text ((fun s => s +:+ "|")
                                          <$> brand_text r)) (rows df))).
  { unfold column_add_text. rewrite Hobj.
    unfold series_add_text. apply mapM_map.
    eapply Forall_impl; [exact Hbrand|]. intros r Hr. by apply add_text_brand. }
  unfold key_columns, product_id_series.
  cbn [filter list_filter].
  destruct (decide ("brand" ∉ columns df)) as [H1|H1];
    [read_column "brand"|apply dec_stable in H1].
  read_column "brand". rewrite Hs, bind_Ok.
  destruct (decide ("screen_size_in" ∉ columns df)) as [H2|H2];
    [read_column "screen_size_in"|apply dec_stable in H2].
  read_column "screen_size_in". add_column astype_str "screen_size_in".
  rewrite series_add_text_opt, bind_Ok.
  destruct (decide ("aspect_ratio" ∉ columns df)) as [H3|H3];
    [read_column "aspect_ratio"|apply dec_stable in H3].
  read_column "aspect_ratio". add_column astype_str "aspect_ratio".
  rewrite series_add_text_opt, bind_Ok.
  destruct (decide ("refresh_rate_hz" ∉ columns df)) as [H4|H4];
    [read_column "refresh_rate_hz"|apply dec_stable in H4].
  read_column "refresh_rate_hz". add_column astype_str "refresh_rate_hz".
  rewrite series_add_text_opt, bind_Ok.
  destruct (decide ("response_time_ms" ∉ columns df)) as [H5|H5];
    [read_column "response_time_ms"|apply dec_stable in H5].
  read_column "response_time_ms".
  rewrite (series_add_opt _ (fun r => astype_str (cell "response_time_ms" r))).
  f_equal. apply map_ext_in. intros r Hr.
  unfold identity_key, brand_text.
  destruct (cell "brand" r); simpl; try reflexivity.
  by rewrite !append_assoc.
Qed.

Lemma groupby_select_missing c df :
  c ∉ columns df ->
  groupby_select c df = Raise (KeyError ("Column not found: " +:+ c)).
Proof.
  intros H. unfold groupby_select. by rewrite bool_decide_eq_false_2.
Qed.

(** X14. What the Matcher raises.  Reading the identifier fields goes
    brand, screen size, aspect ratio, refresh rate, response time.  A
    table without a brand column is a [KeyError] on [brand]; on a table
    whose brands are text or missing, one at least being text, the first
    of the other fields the table lacks is the [KeyError]; a brand that is
    neither text nor missing is a [TypeError], raised before any other
    field is read, there or not, and so is a brand column that pandas
    holds as numbers; a table with the five fields, brands that are text
    or missing, one at least being text, and no [platform] column is the
    [KeyError] of the selection on the groups, whose message is
    [Column not found: platform]. *)
Theorem matcher_errors (astype_str : value -> string) (df : DataFrame) :
  ("brand" ∉ columns df ->
   filter_products_by_platforms astype_str df = Raise (KeyError "brand"))
  /\ (forall c rest,
        Forall (fun r => text_or_missing (cell "brand" r)) (rows df) ->
        some_text_brand df ->
        filter (fun c => c ∉ columns df) key_columns = c :: rest ->
        filter_products_by_platforms astype_str df = Raise (KeyError c))
  /\ (forall r,
        "brand" ∈ columns df -> r ∈ rows df ->
        ~ text_or_missing (cell "brand" r) ->
        filter_products_by_platforms astype_str df = Raise TypeError)
  /\ (Forall (fun r => text_or_missing (cell "brand" r)) (rows df) ->
      some_text_brand df ->
      Forall (fun c => c ∈ columns df) key_columns ->
      "platform" ∉ columns df ->
      filter_products_by_platforms astype_str df
      = Raise (KeyError "Column not found: platform"))
  /\ ("brand" ∈ columns df ->
      numeric_column (map (cell "brand") (rows df)) = true ->
      filter_products_by_platforms astype_str df = Raise TypeError).
Proof.
  split; [|split; [|split; [|split]]].
  - intros H. unfold filter_products_by_platforms, assign_product_id,
      product_id_series.
    rewrite (get_column_missing "brand" df H). reflexivity.
  - intros c rest Hb Ht Hc.
    unfold filter_products_by_platforms, assign_product_id.
    by rewrite product_id_series_columns, Hc
      by (done || by apply numeric_column_text).
  - intros r Hc Hr Hbad.
    unfold filter_products_by_platforms, assign_product_id,
      product_id_series.
    rewrite (get_column_ok "brand" df Hc), bind_Ok.
    unfold column_add_text.
    destruct (numeric_column (map (cell "brand") (rows df))); [done|].
    unfold series_add_text.
    rewrite (mapM_raises_only _ _ (cell "brand" r) TypeError); [done| | |].
    + intros y e. apply add_text_raises.
    + apply list_elem_of_fmap. eauto.
    + unfold text_or_missing, add_text in *.
      destruct (cell "brand" r) as [s|z|[q|b|]| | |y m d]; simpl in *;
        tauto.
  - intros Hb Ht Hk Hp.
    unfold filter_products_by_platforms, assign_product_id.
    rewrite product_id_series_columns
      by (done || by apply numeric_column_text).
    rewrite filter_all_not; [|exact Hk].
    rewrite !bind_Ok.
    rewrite (get_column_ok "product_id"), bind_Ok.
    + rewrite (groupby_select_missing "platform"); [done|].
      unfold set_column. simpl. case_bool_decide; [done|].
      rewrite elem_of_app, list_elem_of_singleton. intros [?|?]; done.
    + unfold set_column. simpl. case_bool_decide; [done|].
      rewrite elem_of_app, list_elem_of_singleton. by right.
  - intros Hc Hnum.
    unfold filter_products_by_platforms, assign_product_id,
      product_id_series.
    rewrite (get_column_ok "brand" df Hc), bind_Ok.
    unfold column_add_text. by rewrite Hnum.
Qed.

Lemma matcher_errors_witness :
  filter_products_by_platforms Repr.py_str numeric_brand_table
  = Raise TypeError.
Proof.
  refine (proj1 (proj2 (proj2 (matcher_errors Repr.py_str
                                 numeric_brand_table))) _ _ _ _).
  - apply (bool_decide_unpack _). vm_compute. exact I.
  - by left.
  - vm_compute. discriminate.
Defined.

(** ** The charts the Analyzer writes *)






















(** ** When the Analyzer raises *)










(** ** The mean of a group with missing prices *)

(** X17. [mean] skips the missing prices.  For a group whose prices are
    finite numbers or missing, the mean is the mean of the prices that are
    there, the sum over the count; it is the missing number when none is
    there, and then only. *)
Theorem mean_skips_missing (vs : list value) :
  Forall (fun v => finite_number v \/ pd_notnull v = false) vs ->
  mean vs = mean (filter (fun v => pd_notnull v = true) vs)
  /\ (filter (fun v => pd_notnull v = true) vs = [] -> mean vs = Ok FNaN)
  /\ (filter (fun v => pd_notnull v = true) vs <> [] ->
      mean vs
      = Ok (FFinite (average (filter (fun v => pd_notnull v = true) vs)))).
Proof.
  intros H. fold (present vs).
  pose proof (present_finite vs H) as Hfin.
  rewrite (mean_present vs H). unfold mean_of_present.
  split; [|split].
  - destruct (present vs) as [|v l] eqn:E; [reflexivity|].
    symmetry. by apply mean_finite.
  - by intros ->.
  - intros E. by destruct (present vs).
Qed.

Lemma mean_skips_missing_witness :
  mean [VInt 200; VNaN; VInt 220; VNone] = mean [VInt 200; VInt 220].
Proof.
  refine (proj1 (mean_skips_missing [VInt 200; VNaN; VInt 220; VNone] _)).
  repeat (apply Forall_cons_2; [vm_compute; tauto|]). apply Forall_nil_2.
Defined.

